(** * ln-contest-epub: the build script [dodo.py], embedded and verified

    The development follows the layout of [dodo.py]:

    - Python text ([str]) and the character classes the script relies on;
    - the two regular expressions of the script ([re.sub], [re.split]);
    - [urllib.parse.urlparse] and [pathlib.PurePosixPath], as far as the
      script uses them;
    - [hashlib.sha256];
    - the records [Entry] and [Book] with their derived properties;
    - the build directory, the network and the task actions;
    - [make_epub].

    Text is modelled as a sequence of code points below 256 (Latin-1): the
    character classes below are Python's on that range. *)

From Stdlib Require Import List Ascii String Strings.Byte NArith ZArith Bool Lia.
From Stdlib Require Import DecimalString DecimalNat.
From stdpp Require Import gmap strings.
From Equations Require Import Equations.
Import ListNotations.

Set Default Proof Using "Type".

(** ** Python [str] *)

Abbreviation str := (list ascii) (only parsing).

(** String literals denote such sequences. *)
Definition literal := list ascii.

Inductive str_lit := LNil | LCons (c : ascii) (l : str_lit).

Fixpoint lit_of_bytes (l : list byte) : str_lit :=
  match l with
  | [] => LNil
  | b :: l => LCons (ascii_of_byte b) (lit_of_bytes l)
  end.

Fixpoint bytes_of_lit (s : str_lit) : list byte :=
  match s with
  | LNil => []
  | LCons c l => byte_of_ascii c :: bytes_of_lit l
  end.

Declare Scope str_scope.
Delimit Scope str_scope with str.
#[warnings="-via-type-remapping,-via-type-mismatch"]
String Notation literal lit_of_bytes bytes_of_lit
  (via str_lit mapping [[nil] => LNil, [cons] => LCons]) : str_scope.
Local Open Scope str_scope.

Definition code (c : ascii) : N := N_of_ascii c.

Definition in_range (lo hi : N) (c : ascii) : bool :=
  ((lo <=? code c) && (code c <=? hi))%N.

(** [c.isspace()], which is also what [\s] matches in a [str] pattern. *)
Definition isspace (c : ascii) : bool :=
  in_range 9 13 c || in_range 28 32 c || (code c =? 133)%N || (code c =? 160)%N.

(** [c.isalnum()]. *)
Definition isalnum (c : ascii) : bool :=
  in_range 48 57 c || in_range 65 90 c || in_range 97 122 c
  || (code c =? 170)%N || in_range 178 179 c || (code c =? 181)%N
  || in_range 185 186 c || in_range 188 190 c
  || in_range 192 214 c || in_range 216 246 c || in_range 248 255 c.

(** [c.isupper()], on this range. *)
Definition isupper (c : ascii) : bool :=
  in_range 65 90 c || in_range 192 214 c || in_range 216 222 c.

Definition lower_char (c : ascii) : ascii :=
  if isupper c then ascii_of_N (code c + 32) else c.

(** [s.lower()]: on this range each character is lowercased by itself. *)
Definition lower (s : str) : str := List.map lower_char s.

Definition ascii_eqb (a b : ascii) : bool := Ascii.eqb a b.

Fixpoint str_eqb (a b : str) : bool :=
  match a, b with
  | [], [] => true
  | x :: a', y :: b' => ascii_eqb x y && str_eqb a' b'
  | _, _ => false
  end.

(** [a.startswith(b)] read as: [b] is a prefix of [a]. *)
Fixpoint startswith (s p : str) : bool :=
  match p, s with
  | [], _ => true
  | x :: p', y :: s' => ascii_eqb x y && startswith s' p'
  | _ :: _, [] => false
  end.

(** [p in s] on strings: substring search. *)
Fixpoint contains (s p : str) : bool :=
  startswith s p ||
  match s with
  | [] => false
  | _ :: s' => contains s' p
  end.

(** [c in s] for a single character. *)
Definition has_char (c : ascii) (s : str) : bool := existsb (ascii_eqb c) s.

(** [s.rstrip()]: trailing whitespace removed. *)
Fixpoint rstrip (s : str) : str :=
  match s with
  | [] => []
  | c :: s' =>
      match rstrip s' with
      | [] => if isspace c then [] else [c]
      | r => c :: r
      end
  end.

(** [s.lstrip(chars)] *)
Fixpoint lstrip_chars (chars : str) (s : str) : str :=
  match s with
  | [] => []
  | c :: s' => if has_char c chars then lstrip_chars chars s' else s
  end.

(** ** The regular expressions of the script

    A pattern is given by its anchored matcher: the number of characters
    the pattern consumes at the start of the text, if it matches there.
    Both patterns of the script consume at least one character when they
    match, so the empty-match rules of [re] never apply. *)

Abbreviation pattern := (list ascii -> option nat) (only parsing).

Fixpoint count_space (s : str) : nat :=
  match s with
  | c :: s' => if isspace c then S (count_space s') else 0
  | [] => 0
  end.

(** [\s+] : greedy, one or more whitespace characters. *)
Definition re_spaces : pattern := fun s =>
  match count_space s with
  | 0 => None
  | n => Some n
  end.

(** [\s*,\s*] : a comma with the whitespace on both sides of it. *)
Definition re_comma : pattern := fun s =>
  let k := count_space s in
  match skipn k s with
  | c :: r => if ascii_eqb c "," then Some (k + 1 + count_space r) else None
  | [] => None
  end.

(** [re.sub(p, repl, s)]: scan left to right, replace each match, copy the
    other characters. *)
Equations? re_sub (p : pattern) (repl s : str) : str by wf (length s) lt :=
  re_sub p repl [] := [];
  re_sub p repl (c :: s') with p (c :: s') => {
    | Some (S n) := repl ++ re_sub p repl (skipn n s');
    | _ := c :: re_sub p repl s' }.
Proof. all: rewrite ?length_skipn; simpl; lia. Qed.

(** [re.split(p, s)]: the pieces of [s] between the matches; [cur] is the
    piece read so far. *)
Equations? re_split_from (p : pattern) (cur s : str) : list str
  by wf (length s) lt :=
  re_split_from p cur [] := [cur];
  re_split_from p cur (c :: s') with p (c :: s') => {
    | Some (S n) := cur :: re_split_from p [] (skipn n s');
    | _ := re_split_from p (cur ++ [c]) s' }.
Proof. all: rewrite ?length_skipn; simpl; lia. Qed.

Definition re_split (p : pattern) (s : str) : list str := re_split_from p [] s.

(** ** Exceptions and results *)

Inductive exn :=
| ValueError
| AssertionError
| KeyError
| IndexError
| FileNotFoundError
| OSError
| ValidationError
| TransportError.

Inductive result (A : Type) :=
| Ok (a : A)
| Raise (e : exn).
Arguments Ok {A} a.
Arguments Raise {A} e.

#[global] Instance result_ret : MRet result := fun _ a => Ok a.
#[global] Instance result_fmap : FMap result := fun _ _ f r =>
  match r with
  | Ok a => Ok (f a)
  | Raise e => Raise e
  end.
#[global] Instance result_bind : MBind result := fun _ _ k r =>
  match r with
  | Ok a => k a
  | Raise e => Raise e
  end.

(** ** [str] methods used by [urllib.parse] and [pathlib] *)

(** [s.partition(sep)] for a one-character separator; the flag tells
    whether the separator was found. *)
Fixpoint partition (sep : ascii) (s : str) : str * bool * str :=
  match s with
  | [] => ([], false, [])
  | c :: s' =>
      if ascii_eqb c sep then ([], true, s')
      else let '(a, found, b) := partition sep s' in (c :: a, found, b)
  end.

(** [s.rpartition(sep)] *)
Definition rpartition (sep : ascii) (s : str) : str * bool * str :=
  let '(a, found, b) := partition sep (rev s) in
  if found then (rev b, true, rev a) else ([], false, s).

(** [s.split(sep)] for a one-character separator. *)
Fixpoint split_on (sep : ascii) (s : str) : list str :=
  match s with
  | [] => [[]]
  | c :: s' =>
      if ascii_eqb c sep then [] :: split_on sep s'
      else match split_on sep s' with
           | p :: ps => (c :: p) :: ps
           | [] => [[c]]
           end
  end.

(** [sep.join(l)] *)
Fixpoint join (sep : str) (l : list str) : str :=
  match l with
  | [] => []
  | [x] => x
  | x :: l' => x ++ sep ++ join sep l'
  end.

(** ** [urllib.parse.urlparse] (CPython 3.11) *)

Record ParseResult := {
  scheme : str;
  netloc : str;
  path : str;
  params : str;
  query : str;
  fragment : str
}.

(** [_check_bracketed_host] asks the [ipaddress] module whether the text
    between brackets is an IPv6 or IPvFuture literal. That decision is a
    parameter of the development. *)
Class IpAddress := check_bracketed_host : str -> bool.

(** Releases of CPython before 3.11.4 accept any bracketed host. *)
Definition unchecked_brackets : IpAddress := fun _ => true.

Definition WHATWG_C0_CONTROL_OR_SPACE : str := List.map ascii_of_nat (seq 0 33).
Definition UNSAFE_URL_BYTES_TO_REMOVE : str := [ascii_of_nat 9; ascii_of_nat 13; ascii_of_nat 10].

Definition scheme_chars : str :=
  "abcdefghijklmnopqrstuvwxyzABCDEFGHIJKLMNOPQRSTUVWXYZ0123456789+-.".

Definition uses_params : list str :=
  [""; "ftp"; "hdl"; "prospero"; "http"; "imap"; "https"; "shttp"; "rtsp";
   "rtspu"; "sip"; "sips"; "mms"; "sftp"; "tel"].

Definition is_ascii_alpha (c : ascii) : bool :=
  in_range 65 90 c || in_range 97 122 c.

(** [_splitnetloc(url, 2)] applied to a [url] that starts with [//]: the
    argument here is the text after the two slashes. *)
Fixpoint splitnetloc (s : str) : str * str :=
  match s with
  | [] => ([], [])
  | c :: s' =>
      if has_char c "/?#" then ([], s)
      else let '(n, r) := splitnetloc s' in (c :: n, r)
  end.

Definition check_bracketed_netloc `{IpAddress} (netloc : str) : result unit :=
  let '(_, _, hostname_and_port) := rpartition "@" netloc in
  let '(before_bracket, have_open_br, bracketed) := partition "[" hostname_and_port in
  if have_open_br then
    match before_bracket with
    | _ :: _ => Raise ValueError
    | [] =>
        let '(hostname, _, port) := partition "]" bracketed in
        match port with
        | c :: _ =>
            if ascii_eqb c ":" then
              if check_bracketed_host hostname then Ok tt else Raise ValueError
            else Raise ValueError
        | [] => if check_bracketed_host hostname then Ok tt else Raise ValueError
        end
    end
  else
    let '(hostname, _, _) := partition ":" hostname_and_port in
    if check_bracketed_host hostname then Ok tt else Raise ValueError.

(** The scheme prefix of [url], if it has one: [(scheme, rest)]. *)
Definition split_scheme (url : str) : str * str :=
  let '(before, found, after) := partition ":" url in
  match before with
  | c0 :: _ =>
      if found && is_ascii_alpha c0
         && forallb (fun c => has_char c scheme_chars) before
      then (lower before, after)
      else ([], url)
  | [] => ([], url)
  end.

Definition urlsplit `{IpAddress} (url0 : str) : result ParseResult :=
  let url := lstrip_chars WHATWG_C0_CONTROL_OR_SPACE url0 in
  let url := List.filter (fun c => negb (has_char c UNSAFE_URL_BYTES_TO_REMOVE)) url in
  let '(scheme, url) := split_scheme url in
  '(netloc, url) ←
    match url with
    | c1 :: c2 :: rest =>
        if ascii_eqb c1 "/" && ascii_eqb c2 "/" then
          let '(netloc, url') := splitnetloc rest in
          let lb := has_char "[" netloc in
          let rb := has_char "]" netloc in
          if (lb && negb rb) || (rb && negb lb) then Raise ValueError
          else
            (if lb && rb then check_bracketed_netloc netloc else Ok tt) ;;
            Ok (netloc, url')
        else Ok ([], url)
    | _ => Ok ([], url)
    end;
  let '(url, _, fragment) := partition "#" url in
  let '(url, _, query) := partition "?" url in
  Ok {| scheme := scheme; netloc := netloc; path := url; params := [];
        query := query; fragment := fragment |}.

(** [_splitparams(url)], called when [url] contains a semicolon. *)
Definition splitparams (url : str) : str * str :=
  let '(dir, has_slash, last) := rpartition "/" url in
  if has_slash then
    let '(name, found, params) := partition ";" last in
    if found then (dir ++ "/" ++ name, params) else (url, [])
  else
    let '(before, _, after) := partition ";" url in (before, after).

Definition urlparse `{IpAddress} (url : str) : result ParseResult :=
  r ← urlsplit url;
  if existsb (str_eqb (scheme r)) uses_params && has_char ";" (path r) then
    let '(url', params') := splitparams (path r) in
    Ok {| scheme := scheme r; netloc := netloc r; path := url';
          params := params'; query := query r; fragment := fragment r |}
  else Ok r.

(** [ParseResult.hostname]; [None] is Python's [None]. *)
Definition hostname (r : ParseResult) : option str :=
  let '(_, _, hostinfo) := rpartition "@" (netloc r) in
  let '(_, have_open_br, bracketed) := partition "[" hostinfo in
  let host :=
    if have_open_br then let '(h, _, _) := partition "]" bracketed in h
    else let '(h, _, _) := partition ":" hostinfo in h in
  match host with
  | [] => None
  | _ =>
      let '(h, percent, zone) := partition "%" host in
      Some (lower h ++ (if percent then "%" else []) ++ zone)
  end.

(** ** [pathlib.PurePosixPath]

    A path is its root ([""], ["/"] or ["//"]) and its components; the
    components never contain a slash and are never empty or ["."]. *)

Record Path := { root : str; parts : list str }.

Definition splitroot (part : str) : str * str :=
  match part with
  | c :: _ =>
      if ascii_eqb c "/" then
        let stripped := lstrip_chars "/" part in
        if length part - length stripped =? 2 then ("//", stripped)
        else ("/", stripped)
      else ([], part)
  | [] => ([], part)
  end.

Definition parse_rel (rel : str) : list str :=
  List.filter (fun x => negb (str_eqb x "") && negb (str_eqb x "."))
              (split_on "/" rel).

(** [Path(s)] *)
Definition mkPath (s : str) : Path :=
  let '(r, rel) := splitroot s in
  {| root := r; parts := parse_rel rel |}.

(** [p / s] *)
Definition joinpath (p : Path) (s : str) : Path :=
  let q := mkPath s in
  match root q with
  | [] => {| root := root p; parts := parts p ++ parts q |}
  | _ => q
  end.

(** [p.name] *)
Definition name (p : Path) : str := List.last (parts p) [].

(** [p.parent] *)
Definition parent (p : Path) : Path :=
  {| root := root p; parts := removelast (parts p) |}.

(** [p.suffix] *)
Definition suffix (p : Path) : str :=
  let '(stem, found, ext) := rpartition "." (name p) in
  match stem, ext with
  | _ :: _, _ :: _ => if found then "." ++ ext else []
  | _, _ => []
  end.

(** [p.with_suffix(suffix)] *)
Definition with_suffix (p : Path) (sfx : str) : result Path :=
  if has_char "/" sfx then Raise ValueError
  else if (negb (str_eqb sfx "") && negb (startswith sfx ".")) || str_eqb sfx "."
  then Raise ValueError
  else
    match name p with
    | [] => Raise ValueError
    | nm =>
        let old_suffix := suffix p in
        let nm' := firstn (length nm - length old_suffix) nm ++ sfx in
        Ok {| root := root p; parts := removelast (parts p) ++ [nm'] |}
    end.

(** [str(p)] *)
Definition fspath (p : Path) : str :=
  match root p ++ join "/" (parts p) with
  | [] => "."
  | s => s
  end.

(** ** Configuration records *)

Definition build_dir : Path := mkPath "build".
Definition book_yaml : str := "book.yaml".

Record Entry := {
  title : str;
  emoji_url : str;
  emoji_name : str;
  tags : list str;
  url : str
}.

(** A value of the configuration document, as [yaml.load] returns it:
    text, a sequence or null. Scalars of other kinds (numbers, booleans,
    dates, binary data) are not represented; what follows speaks of
    configurations whose scalars are text. *)
#[warnings="-register-all"]
Inductive value :=
| VStr (s : str)
| VList (l : list value)
| VNone.

(** [Entry.split_tags], the [pre=True] validator of [tags]. *)
Definition split_tags (v : value) : value :=
  match v with
  | VStr s => VList (List.map VStr (re_split re_comma s))
  | _ => v
  end.

(** Field validation of a [str] field. *)
Definition validate_str (v : value) : result str :=
  match v with
  | VStr s => Ok s
  | _ => Raise ValidationError
  end.

(** Field validation of a [List[str]] field. *)
Definition validate_list_str (v : value) : result (list str) :=
  match v with
  | VList l => mapM validate_str l
  | _ => Raise ValidationError
  end.

(** Normalization of the [tags] field: the [pre] validator, then the
    validation of the field's type. *)
Definition normalize_tags (v : value) : result (list str) :=
  validate_list_str (split_tags v).

(** One item of the [entries] list of the configuration: the keyword
    arguments the script passes to [Entry]; [None] is an absent key. *)
Record raw_entry := {
  raw_title : option value;
  raw_emoji_url : option value;
  raw_emoji_name : option value;
  raw_tags : option value;
  raw_url : option value
}.

Definition required (v : option value) : result value :=
  match v with
  | Some v => Ok v
  | None => Raise ValidationError
  end.

(** Construction of an [Entry] from the keyword arguments. *)
Definition mkEntry (x : raw_entry) : result Entry :=
  t ← required (raw_title x) ≫= validate_str;
  eu ← required (raw_emoji_url x) ≫= validate_str;
  en ← required (raw_emoji_name x) ≫= validate_str;
  tg ← required (raw_tags x) ≫= normalize_tags;
  u ← required (raw_url x) ≫= validate_str;
  Ok {| title := t; emoji_url := eu; emoji_name := en; tags := tg; url := u |}.

Definition safe_characters : list ascii := ["_"%char; "-"%char].

(** [Entry.basename] *)
Definition basename (e : Entry) : str :=
  rstrip (List.filter (fun c => isalnum c || existsb (ascii_eqb c) safe_characters)
                      (re_sub re_spaces "-" (lower (title e)))).

(** [Entry.google_drive_file_id] *)
Definition google_drive_file_id `{IpAddress} (e : Entry) : result str :=
  url_parts ← urlparse (url e);
  if bool_decide (hostname url_parts = Some "docs.google.com") then
    let path := mkPath (path url_parts) in
    let path := if str_eqb (name path) "edit" then parent path else path in
    Ok (name path)
  else Raise AssertionError.

(** [Entry.chapter_title] *)
Definition chapter_title (e : Entry) : str :=
  ":" ++ emoji_name e ++ ": " ++ title e.

Definition metadata_target (e : Entry) : result Path :=
  with_suffix (joinpath build_dir (basename e)) ".yaml".

Definition raw_html_target (e : Entry) : result Path :=
  with_suffix (joinpath build_dir (basename e)) ".raw.html".

Definition readable_html_target (e : Entry) : result Path :=
  with_suffix (joinpath build_dir (basename e)) ".readable.html".

Definition emoji_target `{IpAddress} (e : Entry) : result Path :=
  emoji_url ← urlparse (emoji_url e);
  with_suffix (joinpath build_dir (emoji_name e)) (suffix (mkPath (path emoji_url))).

Record Book := {
  book_title : str;
  entries : list Entry
}.

(** The configuration document: a mapping with the keys [title] and
    [entries]. *)
Record raw_book := {
  raw_book_title : option value;
  raw_entries : option (list raw_entry)
}.

(** [Book.from_yaml], applied to the loaded document. *)
Definition from_yaml (content : raw_book) : result Book :=
  es ← match raw_entries content with
       | Some l => mapM mkEntry l
       | None => Raise KeyError
       end;
  t ← match raw_book_title content with
      | Some v => validate_str v
      | None => Raise KeyError
      end;
  Ok {| book_title := t; entries := es |}.

(** ** [str.encode("utf8")] and [hashlib.sha256] *)

Abbreviation bytes := (list ascii) (only parsing).

Definition encode_utf8_char (c : ascii) : bytes :=
  if (code c <? 128)%N then [c]
  else [ascii_of_N (192 + code c / 64); ascii_of_N (128 + code c mod 64)].

Definition encode_utf8 (s : str) : bytes := flat_map encode_utf8_char s.

Module SHA256.
Local Open Scope Z_scope.

Definition w32 (x : Z) : Z := x mod 2 ^ 32.
Definition add32 (x y : Z) : Z := w32 (x + y).
Definition rotr (n x : Z) : Z := Z.lor (Z.shiftr x n) (w32 (Z.shiftl x (32 - n))).
Definition not32 (x : Z) : Z := 2 ^ 32 - 1 - x.

Definition Ch (x y z : Z) : Z := Z.lxor (Z.land x y) (Z.land (not32 x) z).
Definition Maj (x y z : Z) : Z :=
  Z.lxor (Z.lxor (Z.land x y) (Z.land x z)) (Z.land y z).
Definition Sigma0 (x : Z) : Z := Z.lxor (Z.lxor (rotr 2 x) (rotr 13 x)) (rotr 22 x).
Definition Sigma1 (x : Z) : Z := Z.lxor (Z.lxor (rotr 6 x) (rotr 11 x)) (rotr 25 x).
Definition sigma0 (x : Z) : Z := Z.lxor (Z.lxor (rotr 7 x) (rotr 18 x)) (Z.shiftr x 3).
Definition sigma1 (x : Z) : Z := Z.lxor (Z.lxor (rotr 17 x) (rotr 19 x)) (Z.shiftr x 10).

(** The round constants are the first 32 bits of the fractional parts of
    the cube roots of the first 64 primes, the initial hash value those of
    the square roots of the first 8 primes (FIPS 180-4, 4.2.2 and 5.3.3). *)
Definition is_prime (n : nat) : bool :=
  (1 <? n)%nat && forallb (fun d => negb (n mod d =? 0)%nat) (seq 2 (n - 2)).

Definition primes : list Z :=
  List.map Z.of_nat (List.filter is_prime (seq 2 310)).

(** The integer cube root, one bit at a time from bit [n - 1] down. *)
Fixpoint cube_root (n : nat) (x r : Z) : Z :=
  match n with
  | O => r
  | S n' =>
      let r' := r + 2 ^ Z.of_nat n' in
      cube_root n' x (if r' * r' * r' <=? x then r' else r)
  end.

Definition K : list Z :=
  List.map (fun p => w32 (cube_root 36 (p * 2 ^ 96) 0)) primes.

Definition H0 : list Z :=
  List.map (fun p => w32 (Z.sqrt (p * 2 ^ 64))) (firstn 8 primes).

Definition byte_val (c : ascii) : Z := Z.of_N (code c).

(** Padding: a [0x80] byte, zeros up to 56 modulo 64, and the length of
    the message in bits as a 64-bit big-endian number. *)
Definition be_bytes (n : nat) (x : Z) : list Z :=
  List.map (fun i => Z.shiftr x (8 * Z.of_nat (n - 1 - i)) mod 256) (seq 0 n).

Definition pad (msg : bytes) : list Z :=
  let len := Z.of_nat (length msg) in
  let zeros := Z.to_nat ((55 - len) mod 64) in
  List.map byte_val msg ++ [128] ++ repeat 0 zeros
  ++ be_bytes 8 ((8 * len) mod 2 ^ 64).

Fixpoint be_words (l : list Z) : list Z :=
  match l with
  | a :: b :: c :: d :: l' =>
      (((a * 256 + b) * 256 + c) * 256 + d) :: be_words l'
  | _ => []
  end.

(** The message schedule: [w] holds the words computed so far, most
    recent first. *)
Fixpoint schedule (n : nat) (w : list Z) : list Z :=
  match n with
  | O => w
  | S n' =>
      let x := add32 (add32 (sigma1 (nth 1 w 0)) (nth 6 w 0))
                     (add32 (sigma0 (nth 14 w 0)) (nth 15 w 0)) in
      schedule n' (x :: w)
  end.

Definition state := (Z * Z * Z * Z * Z * Z * Z * Z)%type.

Definition round (s : state) (kw : Z * Z) : state :=
  let '(a, b, c, d, e, f, g, h) := s in
  let t1 := add32 (add32 (add32 h (Sigma1 e)) (add32 (Ch e f g) (fst kw))) (snd kw) in
  let t2 := add32 (Sigma0 a) (Maj a b c) in
  (add32 t1 t2, a, b, c, add32 d t1, e, f, g).

Definition compress (hs : state) (block : list Z) : state :=
  let w := rev (schedule 48 (rev block)) in
  let '(a, b, c, d, e, f, g, h) := fold_left round (combine K w) hs in
  let '(a0, b0, c0, d0, e0, f0, g0, h0) := hs in
  (add32 a0 a, add32 b0 b, add32 c0 c, add32 d0 d,
   add32 e0 e, add32 f0 f, add32 g0 g, add32 h0 h).

Fixpoint blocks (n : nat) (ws : list Z) : list (list Z) :=
  match n with
  | O => []
  | S n' => firstn 16 ws :: blocks n' (skipn 16 ws)
  end.

Definition init : state :=
(nth 0 H0 0, nth 1 H0 0, nth 2 H0 0, nth 3 H0 0,
 nth 4 H0 0, nth 5 H0 0, nth 6 H0 0, nth 7 H0 0).

(** The digest as eight 32-bit words. *)
Definition digest (msg : bytes) : state :=
  let ws := be_words (pad msg) in
  fold_left compress (blocks (length ws / 16) ws) init.

Definition hex_digit (x : Z) : ascii :=
  nth (Z.to_nat x) "0123456789abcdef" "0"%char.

Definition hex_word (x : Z) : str :=
  List.map (fun i => hex_digit (Z.shiftr x (4 * Z.of_nat (7 - i)) mod 16)) (seq 0 8).

Definition hex_state (s : state) : str :=
  let '(a, b, c, d, e, f, g, h) := s in
  hex_word a ++ hex_word b ++ hex_word c ++ hex_word d
  ++ hex_word e ++ hex_word f ++ hex_word g ++ hex_word h.

(** [hashlib.sha256(msg).hexdigest()] *)
Definition hexdigest (msg : bytes) : str := hex_state (digest msg).
Definition word (x : Z) : Prop := 0 <= x < 2 ^ 32.

Definition words (s : state) : Prop :=
  let '(a, b, c, d, e, f, g, h) := s in
  word a /\ word b /\ word c /\ word d /\ word e /\ word f /\ word g /\ word h.

End SHA256.

(** [Book.identifier] *)
Definition identifier (b : Book) : str :=
  SHA256.hexdigest (encode_utf8 (book_title b)).

Definition cover_html_target (b : Book) : Path := joinpath build_dir "cover.html".
Definition cover_image_target (b : Book) : Path := joinpath build_dir "cover.png".
Definition epub_target (b : Book) : Path := joinpath build_dir "book.epub".

(** ** The world of a build: files, network, environment

    A task action runs against the build directory and the network. Its
    effects are kept in [world]; what the outside answers is in [env]. An
    exception ends the action and keeps the effects made so far. *)

Record file := { content : bytes; mtime : nat }.

Record request := { req_url : str; req_params : list (str * str) }.

Record response := { status_code : nat; text : str; body : bytes }.

Record world := {
  fs : gmap str file;
  clock : nat;
  sent : list request
}.

(** How writing to a path goes wrong, when it does: [open] raises, or the
    write raises after [n] characters have reached the file. *)
Inductive fault :=
| OpenFails
| WriteFails (n : nat).

Record env := {
  environ : gmap str str;
  http : request -> option response;
  io_fault : str -> option fault
}.

Definition M (A : Type) : Type := world -> world * result A.

#[global] Instance M_ret : MRet M := fun _ a w => (w, Ok a).
#[global] Instance M_bind : MBind M := fun _ _ k m w =>
  match m w with
  | (w', Ok a) => k a w'
  | (w', Raise e) => (w', Raise e)
  end.

Definition lift {A} (r : result A) : M A := fun w => (w, r).

Definition set_file (p : str) (c : bytes) (w : world) : world :=
  {| fs := <[p := {| content := c; mtime := clock w |}]> (fs w);
     clock := S (clock w);
     sent := sent w |}.

(** [open(p, "w")]: the file is created, or truncated, at [p] itself. *)
Definition open_w (ev : env) (p : str) : M unit := fun w =>
  match io_fault ev p with
  | Some OpenFails => (w, Raise OSError)
  | _ => (set_file p [] w, Ok tt)
  end.

(** [f.write(data)] followed by the close of the [with] block. *)
Definition write (ev : env) (p : str) (data : bytes) : M unit := fun w =>
  match io_fault ev p with
  | Some (WriteFails n) => (set_file p (firstn n data) w, Raise OSError)
  | _ => (set_file p data w, Ok tt)
  end.

(** [p.read_bytes()] *)
Definition read (p : str) : M bytes := fun w =>
  match fs w !! p with
  | Some f => (w, Ok (content f))
  | None => (w, Raise FileNotFoundError)
  end.

(** What reading in text mode does to line ends: a carriage return, with
    the line feed that follows it if there is one, is read as one line
    feed. *)
Fixpoint universal_newlines (s : str) : str :=
  match s with
  | [] => []
  | c :: s' =>
      if ascii_eqb c "013" then
        "010"%char :: match s' with
                      | d :: s'' =>
                          if ascii_eqb d "010" then universal_newlines s''
                          else universal_newlines s'
                      | [] => []
                      end
      else c :: universal_newlines s'
  end.

(** [p.read_text()]: the file holds text, which is read in text mode. *)
Definition read_text (p : str) : M str :=
  data ← read p;
  mret (universal_newlines data).

(** [httpx.get(url, params=...)] *)
Definition httpx_get (ev : env) (u : str) (ps : list (str * str)) : M response :=
  fun w =>
    let rq := {| req_url := u; req_params := ps |} in
    let w' := {| fs := fs w; clock := clock w; sent := sent w ++ [rq] |} in
    match http ev rq with
    | Some r => (w', Ok r)
    | None => (w', Raise TransportError)
    end.

(** [os.environ[key]] *)
Definition os_environ (ev : env) (key : str) : result str :=
  match environ ev !! key with
  | Some v => Ok v
  | None => Raise KeyError
  end.

(** [targets[0]] *)
Definition first_target (targets : list str) : result str :=
  match targets with
  | t :: _ => Ok t
  | [] => Raise IndexError
  end.

(** ** Tasks *)

Record task := {
  task_name : str;
  file_dep : list str;
  targets : list str;
  actions : list (list str -> M unit)
}.

(** The driver calls each action of a task with the task's targets. *)
Fixpoint run_actions (acts : list (list str -> M unit)) (tg : list str) : M unit :=
  match acts with
  | [] => mret tt
  | a :: acts' => a tg ;; run_actions acts' tg
  end.

Definition run_task (t : task) : M unit := run_actions (actions t) (targets t).

Section tasks.
Context `{IpAddress}.
Variable ev : env.

(** [download_html], the closure [make_download_html(entry)] returns. *)
Definition download_html (entry : Entry) (targets : list str) : M unit :=
  id ← lift (google_drive_file_id entry);
  let export_url := "https://www.googleapis.com/drive/v3/files/" ++ id ++ "/export" in
  key ← lift (os_environ ev "GOOGLE_API_KEY");
  response ← httpx_get ev export_url [("mimeType", "text/html"); ("key", key)];
  t ← lift (first_target targets);
  open_w ev t ;;
  write ev t (text response).

Definition task_raw_html (book : Book) : result (list task) :=
  mapM (fun entry =>
          dep ← metadata_target entry;
          tgt ← raw_html_target entry;
          Ok {| task_name := basename entry;
                file_dep := [fspath dep];
                targets := [fspath tgt];
                actions := [download_html entry] |})
       (entries book).

(** [download_emoji], the closure [make_download_emoji(entry)] returns. *)
Definition download_emoji (entry : Entry) (targets : list str) : M unit :=
  response ← httpx_get ev (emoji_url entry) [];
  t ← lift (first_target targets);
  open_w ev t ;;
  write ev t (body response).

Definition task_emoji (book : Book) : result (list task) :=
  mapM (fun entry =>
          dep ← metadata_target entry;
          tgt ← emoji_target entry;
          Ok {| task_name := basename entry;
                file_dep := [fspath dep];
                targets := [fspath tgt];
                actions := [download_emoji entry] |})
       (entries book).
End tasks.

(** ** The packaged document ([ebooklib.epub]) *)

(** The keyword arguments of [chapter_template.render]. *)
Record chapter_context := {
  ctx_raw_html : str;
  ctx_title : str;
  ctx_url : str;
  ctx_tags : list str;
  ctx_emoji_file_name : str;
  ctx_emoji_name : str;
  raw_html_includes_title : bool;
  raw_html_includes_tags : bool;
  raw_html_failed_to_export : bool
}.

(** The chapter template [templates/chapter.jinja], applied by jinja2. *)
Class Jinja := chapter_template_render : chapter_context -> str.

(** [epub.EpubHtml] *)
Record EpubHtml := {
  html_title : str;
  html_file_name : str;
  html_lang : str;
  html_content : str
}.

Inductive item :=
| CoverImage (file_name : str) (data : bytes)
| CoverHtml (image_name : str)
| Image (file_name : str) (data : bytes)
| Html (chapter : EpubHtml)
| Ncx
| Nav
| Item (uid file_name media_type : str) (data : str).

(** An element of the spine: an item, or the name of one. *)
Inductive spine_ref :=
| SpineItem (i : item)
| SpineName (n : str).

Record EpubBook := {
  eb_identifier : str;
  eb_title : str;
  eb_language : str;
  eb_authors : list str;
  eb_items : list item;
  eb_toc : list EpubHtml;
  eb_spine : list spine_ref
}.

(** [epub.EpubBook()] *)
Definition new_book : EpubBook :=
  {| eb_identifier := ""; eb_title := ""; eb_language := ""; eb_authors := [];
     eb_items := []; eb_toc := []; eb_spine := [] |}.

Definition set_identifier (x : str) (b : EpubBook) : EpubBook :=
  {| eb_identifier := x; eb_title := eb_title b; eb_language := eb_language b;
     eb_authors := eb_authors b; eb_items := eb_items b; eb_toc := eb_toc b;
     eb_spine := eb_spine b |}.

Definition set_title (x : str) (b : EpubBook) : EpubBook :=
  {| eb_identifier := eb_identifier b; eb_title := x; eb_language := eb_language b;
     eb_authors := eb_authors b; eb_items := eb_items b; eb_toc := eb_toc b;
     eb_spine := eb_spine b |}.

Definition set_language (x : str) (b : EpubBook) : EpubBook :=
  {| eb_identifier := eb_identifier b; eb_title := eb_title b; eb_language := x;
     eb_authors := eb_authors b; eb_items := eb_items b; eb_toc := eb_toc b;
     eb_spine := eb_spine b |}.

Definition add_author (x : str) (b : EpubBook) : EpubBook :=
  {| eb_identifier := eb_identifier b; eb_title := eb_title b;
     eb_language := eb_language b; eb_authors := eb_authors b ++ [x];
     eb_items := eb_items b; eb_toc := eb_toc b; eb_spine := eb_spine b |}.

Definition add_item (x : item) (b : EpubBook) : EpubBook :=
  {| eb_identifier := eb_identifier b; eb_title := eb_title b;
     eb_language := eb_language b; eb_authors := eb_authors b;
     eb_items := eb_items b ++ [x]; eb_toc := eb_toc b; eb_spine := eb_spine b |}.

Definition set_toc (x : list EpubHtml) (b : EpubBook) : EpubBook :=
  {| eb_identifier := eb_identifier b; eb_title := eb_title b;
     eb_language := eb_language b; eb_authors := eb_authors b;
     eb_items := eb_items b; eb_toc := x; eb_spine := eb_spine b |}.

Definition set_spine (x : list spine_ref) (b : EpubBook) : EpubBook :=
  {| eb_identifier := eb_identifier b; eb_title := eb_title b;
     eb_language := eb_language b; eb_authors := eb_authors b;
     eb_items := eb_items b; eb_toc := eb_toc b; eb_spine := x |}.

(** [epub_book.set_cover(file_name, data, create_page=False)] *)
Definition set_cover (file_name : str) (data : bytes) (b : EpubBook) : EpubBook :=
  add_item (CoverImage file_name data) b.

(** [epub.write_epub(name, book, {})], the writer of the packaging
    library. It serializes the items of the document into an archive at
    [name]; whether it raises, and what it leaves at [name] when it does or
    when the file cannot be written, is the library's. *)
Class EbookLib := write_epub : env -> str -> EpubBook -> M unit.

(** The format specification [:02] on a non-negative [int]. *)
Definition format_02 (n : nat) : str :=
  let digits := list_ascii_of_string (NilZero.string_of_uint (Nat.to_uint n)) in
  repeat "0"%char (2 - length digits) ++ digits.

Section packaging.
Context `{IpAddress} `{Jinja} `{EbookLib}.
Variable ev : env.

(** The arguments the loop of [make_epub] passes to the chapter
    template for one entry, given the text of its raw HTML file. *)
Definition render_args (entry : Entry) (emoji_file_name raw_html : str)
  : chapter_context :=
  let raw_html_lower := lower raw_html in
  {| ctx_raw_html := raw_html;
     ctx_title := title entry;
     ctx_url := url entry;
     ctx_tags := tags entry;
     ctx_emoji_file_name := emoji_file_name;
     ctx_emoji_name := emoji_name entry;
     raw_html_includes_title := contains raw_html_lower (lower (title entry));
     raw_html_includes_tags :=
       forallb (fun tag => contains raw_html_lower (lower tag)) (tags entry);
     raw_html_failed_to_export := contains raw_html "cannotExportFile" |}.

(** One turn of the loop over [enumerate(book.entries)]. *)
Definition add_chapter (i : nat) (entry : Entry)
  (st : EpubBook * list EpubHtml) : M (EpubBook * list EpubHtml) :=
  let '(epub_book, chapters) := st in
  let chapter_number := i + 1 in
  target ← lift (emoji_target entry);
  let emoji_file_name := name target in
  target ← lift (emoji_target entry);
  emoji_content ← read (fspath target);
  let epub_book := add_item (Image emoji_file_name emoji_content) epub_book in
  raw ← lift (raw_html_target entry);
  raw_html ← read_text (fspath raw);
  let chapter :=
    {| html_title := chapter_title entry;
       html_file_name := "chapter_" ++ format_02 chapter_number ++ ".xhtml";
       html_lang := "en";
       html_content :=
         chapter_template_render (render_args entry emoji_file_name raw_html) |} in
  let epub_book := add_item (Html chapter) epub_book in
  mret (epub_book, chapters ++ [chapter]).

Fixpoint add_chapters (i : nat) (es : list Entry)
  (st : EpubBook * list EpubHtml) : M (EpubBook * list EpubHtml) :=
  match es with
  | [] => mret st
  | entry :: es' => add_chapter i entry st ≫= add_chapters (S i) es'
  end.

(** [make_epub(output, book)] *)
Definition make_epub (output : str) (book : Book) : M unit :=
  let epub_book := new_book in
  let epub_book := set_identifier (identifier book) epub_book in
  let epub_book := set_title (book_title book) epub_book in
  let epub_book := set_language "en" epub_book in
  let epub_book := add_author "Various Authors" epub_book in
  cover ← read (fspath (cover_image_target book));
  let epub_book := set_cover "cover.png" cover epub_book in
  let cover_page := CoverHtml "cover.png" in
  let epub_book := add_item cover_page epub_book in
  '(epub_book, chapters) ← add_chapters 0 (entries book) (epub_book, []);
  let epub_book := set_toc chapters epub_book in
  let epub_book := add_item Ncx epub_book in
  let epub_book := add_item Nav epub_book in
  stylesheet ← read_text "stylesheets/style.css";
  let style_item := Item "style_nav" "style.css" "text/css" stylesheet in
  let epub_book := add_item style_item epub_book in
  let epub_book :=
    set_spine ([SpineItem cover_page; SpineName "nav"]
               ++ List.map (fun c => SpineItem (Html c)) chapters) epub_book in
  write_epub ev output epub_book.

Definition task_epub (book : Book) : result task :=
  raws ← mapM raw_html_target (entries book);
  emojis ← mapM emoji_target (entries book);
  Ok {| task_name := "epub";
        file_dep := List.map fspath raws ++ List.map fspath emojis
                    ++ [fspath (cover_image_target book);
                        "stylesheets/style.css"; "templates/chapter.jinja"];
        targets := [fspath (epub_target book)];
        actions := [fun targets =>
                      t ← lift (first_target targets); make_epub t book] |}.
End packaging.

(** ** The specification's vocabulary

    The definitions of this part follow the wording of the specification;
    the theorems compare them with the definitions above, which follow the
    script. *)

(** The maximal runs of a text: consecutive characters that are all
    whitespace, or all not; the flag tells which. *)
Fixpoint runs (s : str) : list (bool * str) :=
  match s with
  | [] => []
  | c :: s' =>
      match runs s' with
      | (b, r) :: rest =>
          if Bool.eqb b (isspace c) then (b, c :: r) :: rest
          else (isspace c, [c]) :: (b, r) :: rest
      | [] => [(isspace c, [c])]
      end
  end.

(** A run of whitespace becomes a single hyphen. *)
Definition hyphenate (r : bool * str) : str :=
  if fst r then "-" else snd r.

(** The title lowercased, every maximal run of whitespace replaced by a
    single hyphen, every character that is not alphanumeric and not [_]
    or [-] removed. *)
Definition slug (title : str) : str :=
  List.filter (fun c => isalnum c || ascii_eqb c "_" || ascii_eqb c "-")
              (flat_map hyphenate (runs (lower title))).

(** A separator of the comma-separated form: a comma with any whitespace
    around it. *)
Definition is_separator (sep : str) : bool :=
  match skipn (count_space sep) sep with
  | c :: r => ascii_eqb c "," && forallb isspace r
  | [] => false
  end.

(** A tag the comma-separated form can carry: it holds no comma and
    neither starts nor ends with whitespace. *)
Definition plain_tag (t : str) : bool :=
  negb (has_char "," t)
  && negb (isspace (hd "x"%char t)) && negb (isspace (List.last t "x"%char)).

(** The tags written as one string, [seps] between them. *)
Fixpoint comma_separated (tags seps : list str) : str :=
  match tags, seps with
  | t :: tags', sep :: seps' => t ++ sep ++ comma_separated tags' seps'
  | t :: _, [] => t
  | [], _ => []
  end.

(** The segments of a URL path, as [pathlib] reads them: the pieces between
    slashes, without the empty ones and the ones that are a single dot. *)
Definition path_segments (p : str) : list str :=
  List.filter (fun x => negb (str_eqb x "") && negb (str_eqb x "."))
              (split_on "/" p).

(** The final segment of the path, after a trailing [edit] segment is
    stripped; empty when no segment is left. *)
Definition document_identity (p : str) : str :=
  let segs := path_segments p in
  let segs := if str_eqb (List.last segs "") "edit" then removelast segs else segs in
  List.last segs "".

(** The configuration that describes a given collection, tags in list
    form. *)
Definition entry_config (e : Entry) : raw_entry :=
  {| raw_title := Some (VStr (title e));
     raw_emoji_url := Some (VStr (emoji_url e));
     raw_emoji_name := Some (VStr (emoji_name e));
     raw_tags := Some (VList (List.map VStr (tags e)));
     raw_url := Some (VStr (url e)) |}.

Definition book_config (b : Book) : raw_book :=
  {| raw_book_title := Some (VStr (book_title b));
     raw_entries := Some (List.map entry_config (entries b)) |}.

(** [needle] occurs in [hay]. *)
Definition occurs (needle hay : str) : Prop :=
  exists pre post, hay = pre ++ needle ++ post.

(** Two texts are the same when case is ignored. *)
Definition same_ignoring_case (a b : str) : Prop :=
  Forall2 (fun x y => lower_char x = lower_char y) a b.

(** [needle] occurs in [hay] when case is ignored. *)
Definition occurs_ignoring_case (needle hay : str) : Prop :=
  exists pre mid post, hay = pre ++ mid ++ post /\ same_ignoring_case mid needle.

(** The request the article export fetch sends for a document identity and
    an API credential. *)
Definition export_request (id key : str) : request :=
  {| req_url := "https://www.googleapis.com/drive/v3/files/" ++ id ++ "/export";
     req_params := [("mimeType", "text/html"); ("key", key)] |}.

(** A write that failed part-way: the first target exists at its final
    path and holds the first [n] characters of [data]. *)
Definition failed_write (ev : env) (tgts : list str) (data : bytes)
  (w w' : world) : Prop :=
  exists t rest n,
    tgts = t :: rest
    /\ io_fault ev t = Some (WriteFails n)
    /\ fs w' = <[t := {| content := firstn n data; mtime := S (clock w) |}]> (fs w).

(** The chapters among the items of a document, in item order. *)
Definition html_items (items : list item) : list EpubHtml :=
  omap (fun it => match it with Html c => Some c | _ => None end) items.

(** [ch] is the chapter of [entry], the entry at position [i], built from
    the files of [w]. *)
Definition chapter_of `{IpAddress} `{Jinja} (w : world) (i : nat)
  (entry : Entry) (ch : EpubHtml) : Prop :=
  exists p r f,
    emoji_target entry = Ok p
    /\ raw_html_target entry = Ok r
    /\ fs w !! fspath r = Some f
    /\ ch = {| html_title := chapter_title entry;
               html_file_name := "chapter_" ++ format_02 (i + 1) ++ ".xhtml";
               html_lang := "en";
               html_content :=
                 chapter_template_render
                   (render_args entry (name p) (universal_newlines (content f))) |}.

(** The files [make_epub] reads for an entry are there. *)
Definition entry_fetched `{IpAddress} (w : world) (entry : Entry) : Prop :=
  exists p r,
    emoji_target entry = Ok p /\ is_Some (fs w !! fspath p)
    /\ raw_html_target entry = Ok r /\ is_Some (fs w !! fspath r).

(** ** Vocabulary of the proofs and sample data *)

Definition drop_space (s : str) : str := skipn (count_space s) s.

Definition comma_after_space (s : str) : bool :=
  match drop_space s with
  | c :: _ => ascii_eqb c ","
  | [] => false
  end.

Definition hello_world : Entry :=
  {| title := "Hello World"; emoji_url := "https://example.org/img/grin.png";
     emoji_name := "grin"; tags := ["fun"; "test"];
     url := "https://docs.google.com/document/d/ABC123/edit" |}.

Definition hello_world_url : ParseResult :=
  {| scheme := "https"; netloc := "docs.google.com";
     path := "/document/d/ABC123/edit"; params := ""; query := ""; fragment := "" |}.

Definition quiet_env : env :=
  {| environ := ∅; http := fun _ => None; io_fault := fun _ => None |}.

Definition second_grin : Entry :=
  {| title := "Another Story"; emoji_url := "http://cdn.example.net/a/b/smile.v2.png?x=1";
     emoji_name := "grin"; tags := []; url := "https://docs.google.com/document/d/XYZ/" |}.

Definition emoji_task (ev : env) (e : Entry) (dep tgt : str) : task :=
  {| task_name := basename e; file_dep := [dep]; targets := [tgt];
     actions := [download_emoji ev e] |}.

Definition not_a_url : Entry :=
  {| title := "Hello World"; emoji_url := "https://example.org/img/grin.png";
     emoji_name := "grin"; tags := ["fun"; "test"]; url := "not a url" |}.

Definition empty_world : world := {| fs := ∅; clock := 0; sent := [] |}.

Definition forbidden : response :=
  {| status_code := 403; text := "error 403: cannotExportFile";
     body := "error 403: cannotExportFile" |}.

Definition export_env : env :=
  {| environ := {[ "GOOGLE_API_KEY" := "secret" ]};
     http := fun _ => Some forbidden;
     io_fault := fun _ => None |}.

Definition raw_html_task `{IpAddress} (ev : env) (e : Entry) (dep tgt : list ascii) : task :=
  {| task_name := basename e; file_dep := [dep]; targets := [tgt];
     actions := [download_html ev e] |}.

Definition reading_list : Book :=
  {| book_title := "Reading List"; entries := [hello_world] |}.

Definition page : response :=
  {| status_code := 200; text := "<html><body>Hello</body></html>";
     body := "<html><body>Hello</body></html>" |}.

(** The disk fills up while the raw HTML file is written. *)
Definition disk_full_env : env :=
  {| environ := {[ "GOOGLE_API_KEY" := "secret" ]};
     http := fun _ => Some page;
     io_fault := fun p =>
       if bool_decide (p = "build/hello-world.raw.html") then Some (WriteFails 6)
       else None |}.

Definition metadata_written : world :=
  {| fs := {[ "build/hello-world.yaml" :=
                {| content := "title: Hello World"; mtime := 0 |} ]};
     clock := 1; sent := [] |}.

(** What one turn of the loop leaves unchanged in the document. *)
Definition same_header (a b : EpubBook) : Prop :=
  eb_identifier a = eb_identifier b /\ eb_title a = eb_title b
  /\ eb_language a = eb_language b /\ eb_authors a = eb_authors b
  /\ eb_toc a = eb_toc b /\ eb_spine a = eb_spine b.

Definition title_and_body : Jinja := fun c =>
  "<html><head><title>" ++ ctx_title c ++ "</title></head><body>"
  ++ ctx_raw_html c ++ "</body></html>".

(** A writer that stores the titles of the document and passes over an
    I/O error. *)
Definition titles_only : EbookLib := fun ev name doc w =>
  let data := eb_title doc ++ concat (List.map html_title (eb_toc doc)) in
  (fst ((open_w ev name ;; write ev name data) w), Ok tt).

Definition fetched : world :=
  {| fs := {[ "build/cover.png" := {| content := "PNG"; mtime := 3 |};
              "stylesheets/style.css" := {| content := "body {}"; mtime := 0 |};
              "build/grin.png" := {| content := "PNG"; mtime := 2 |};
              "build/hello-world.raw.html" :=
                {| content := "<p>Hello World</p>"; mtime := 1 |} ]};
     clock := 4; sent := [] |}.

(** An entry whose title has no character a basename keeps. *)
Definition punctuation_only : Entry :=
  {| title := "?!"; emoji_url := ""; emoji_name := "grin"; tags := []; url := "" |}.

(** The number of commas of a text. *)
Definition count_comma (s : str) : nat :=
  length (List.filter (fun c => ascii_eqb c ",") s).

(** A lowercase hexadecimal digit. *)
Definition is_hex_digit (c : ascii) : bool :=
  in_range 48 57 c || in_range 97 102 c.

(** The path of a per-entry artifact, as text: under the build directory
    for an entry with a basename, beside it otherwise. *)
Definition entry_file (e : Entry) (ext : str) : str :=
  match basename e with
  | [] => "build" ++ ext
  | b => "build/" ++ b ++ ext
  end.

(** The request the icon fetch sends. *)
Definition icon_request (e : Entry) : request :=
  {| req_url := emoji_url e; req_params := [] |}.

(** The document [make_epub] has assembled when its loop starts, and the
    one it hands to [write_epub]. *)
Definition initial_document (book : Book) (cover : bytes) : EpubBook :=
  add_item (CoverHtml "cover.png")
    (set_cover "cover.png" cover
       (add_author "Various Authors"
          (set_language "en"
             (set_title (book_title book)
                (set_identifier (identifier book) new_book))))).

Definition finished_document (eb : EpubBook) (chapters : list EpubHtml)
  (stylesheet : bytes) : EpubBook :=
  set_spine ([SpineItem (CoverHtml "cover.png"); SpineName "nav"]
             ++ List.map (fun c => SpineItem (Html c)) chapters)
    (add_item (Item "style_nav" "style.css" "text/css" stylesheet)
       (add_item Nav (add_item Ncx (set_toc chapters eb)))).

(** The items the loop adds: for each chapter its icon, then the chapter. *)
Fixpoint chapter_items (icons : list (str * bytes)) (chapters : list EpubHtml)
  : list item :=
  match icons, chapters with
  | (n, data) :: icons', ch :: chapters' =>
      Image n data :: Html ch :: chapter_items icons' chapters'
  | _, _ => []
  end.

(** The icon [make_epub] embeds for an entry: the name of its icon target
    and the bytes of that file. *)
Definition icon_of `{IpAddress} (w : world) (entry : Entry)
  (icon : str * bytes) : Prop :=
  exists p f, emoji_target entry = Ok p /\ fs w !! fspath p = Some f
              /\ icon = (name p, content f).

(** The number a decimal numeral denotes, leading zeros allowed. *)
Definition decimal_value (s : str) : option nat :=
  option_map Nat.of_uint (NilEmpty.uint_of_string (string_of_list_ascii s)).

(** Two worlds hold the same bytes at [p]. *)
Definition same_content (w1 w2 : world) (p : str) : Prop :=
  content <$> fs w1 !! p = content <$> fs w2 !! p.

(** The same inputs as [fetched], fetched at other times, and one more
    file. *)
Definition fetched_again : world :=
  {| fs := {[ "build/cover.png" := {| content := "PNG"; mtime := 7 |};
              "stylesheets/style.css" := {| content := "body {}"; mtime := 0 |};
              "build/grin.png" := {| content := "PNG"; mtime := 9 |};
              "build/hello-world.raw.html" :=
                {| content := "<p>Hello World</p>"; mtime := 8 |};
              "build/notes.txt" := {| content := "unrelated"; mtime := 5 |} ]};
     clock := 10; sent := [] |}.

(** An entry whose icon URL [urlparse] rejects. *)
Definition broken_icon : Entry :=
  {| title := "Broken"; emoji_url := "http://[cdn.example.net/smile.png";
     emoji_name := "smile"; tags := []; url := "https://docs.google.com/document/d/Q/" |}.

(** ** [base64.b64encode] and the cover page

    The standard alphabet, with padding. A group of three bytes is read
    as one number and written as four characters of six bits each. *)

Definition b64_alphabet : str :=
  List.map ascii_of_nat (seq 65 26 ++ seq 97 26 ++ seq 48 10) ++ "+/".

Definition b64_char (i : Z) : ascii := nth (Z.to_nat i) b64_alphabet "="%char.

Definition byte_value (c : ascii) : Z := Z.of_N (code c).

Fixpoint b64encode (l : bytes) : str :=
  match l with
  | a :: b :: c :: l' =>
      let n := (byte_value a * 65536 + byte_value b * 256 + byte_value c)%Z in
      b64_char (n / 262144) :: b64_char (n / 4096 mod 64)
      :: b64_char (n / 64 mod 64) :: b64_char (n mod 64) :: b64encode l'
  | [a; b] =>
      let n := (byte_value a * 65536 + byte_value b * 256)%Z in
      [b64_char (n / 262144); b64_char (n / 4096 mod 64); b64_char (n / 64 mod 64);
       "="%char]
  | [a] =>
      let n := (byte_value a * 65536)%Z in
      [b64_char (n / 262144); b64_char (n / 4096 mod 64); "="%char; "="%char]
  | [] => []
  end.

(** [image_to_data_url(path)] *)
Definition image_to_data_url (path : Path) : M str :=
  let prefix := "data:image/" ++ skipn 1 (suffix path) ++ ";base64," in
  data ← read (fspath path);
  mret (prefix ++ b64encode data).

(** The keyword arguments of the cover template. *)
Record cover_context := {
  background_texture : str;
  cover_title : str;
  text_direction : str
}.

(** The cover template [templates/cover.jinja], applied by jinja2. *)
Class CoverTemplate := cover_template_render : cover_context -> str.

Section cover.
Context `{CoverTemplate}.
Variable ev : env.

(** [write_cover_html], the action of the [html] subtask of [task_cover]. *)
Definition write_cover_html (book : Book) (targets : list str) : M unit :=
  texture ← image_to_data_url (mkPath "images/paper-fibers.png");
  let context := {| background_texture := texture;
                    cover_title := book_title book;
                    text_direction := "ltr" |} in
  t ← lift (first_target targets);
  open_w ev t ;;
  write ev t (cover_template_render context).

(** The [html] subtask of [task_cover]. *)
Definition task_cover_html (book : Book) : task :=
  {| task_name := "html";
     file_dep := [book_yaml; "templates/cover.jinja"];
     targets := [fspath (cover_html_target book)];
     actions := [write_cover_html book] |}.
End cover.

(** The inverse of [b64encode], to state that nothing is lost. *)
Fixpoint index_of (c : ascii) (l : str) (i : Z) : Z :=
  match l with
  | [] => i
  | d :: l' => if ascii_eqb c d then i else index_of c l' (i + 1)
  end.

Definition b64_index (c : ascii) : Z :=
  if ascii_eqb c "=" then 0%Z else index_of c b64_alphabet 0.

Definition byte_of (z : Z) : ascii := ascii_of_N (Z.to_N z).

Fixpoint b64decode (s : str) : bytes :=
  match s with
  | c1 :: c2 :: c3 :: c4 :: s' =>
      let n := (((b64_index c1 * 64 + b64_index c2) * 64 + b64_index c3) * 64
                + b64_index c4)%Z in
      if ascii_eqb c3 "=" then [byte_of (n / 65536)]
      else if ascii_eqb c4 "=" then [byte_of (n / 65536); byte_of (n / 256 mod 256)]
      else byte_of (n / 65536) :: byte_of (n / 256 mod 256) :: byte_of (n mod 256)
           :: b64decode s'
  | _ => []
  end.

(** A cover template that shows the title over the texture, and a world
    that holds the texture. *)
Definition title_over_texture : CoverTemplate := fun c =>
  cover_title c ++ " " ++ background_texture c.

Definition with_texture : world :=
  {| fs := {[ "images/paper-fibers.png" := {| content := "PNG"; mtime := 0 |} ]};
     clock := 1; sent := [] |}.

(** ** Reading an identifier back

    The inverses of the hexadecimal notation and of the UTF-8 encoding,
    to state that neither loses anything. *)

Definition hex_value (c : ascii) : Z := index_of c "0123456789abcdef" 0.

Definition unhex (s : str) : Z :=
  fold_left (fun acc c => (acc * 16 + hex_value c)%Z) s 0%Z.

Fixpoint decode_utf8 (l : bytes) : str :=
  match l with
  | [] => []
  | c :: l' =>
      if (code c <? 128)%N then c :: decode_utf8 l'
      else match l' with
           | d :: l'' =>
               ascii_of_N ((code c - 192) * 64 + (code d - 128)) :: decode_utf8 l''
           | [] => []
           end
  end.

(** Two different messages with the same SHA-256 digest. *)
Definition sha256_collision (m1 m2 : bytes) : Prop :=
  m1 <> m2 /\ SHA256.digest m1 = SHA256.digest m2.

(** * Properties *)

Example re_sub_ex : re_sub re_spaces "-" "a  b c" = "a-b-c".
Proof. reflexivity. Qed.
Example re_split_ex : re_split re_comma "fun , test,x" = ["fun"; "test"; "x"].
Proof. reflexivity. Qed.

Section urlparse_examples.
Context `{IpAddress}.

Example urlparse_doc :
  urlparse "https://docs.google.com/document/d/ABC123/edit"
  = Ok {| scheme := "https"; netloc := "docs.google.com";
          path := "/document/d/ABC123/edit"; params := "";
          query := ""; fragment := "" |}.
Proof. reflexivity. Qed.

Example urlparse_full :
  urlparse " HTTPS://user:pw@Docs.Google.com:443/a/b;p?q=1#frag"
  = Ok {| scheme := "https"; netloc := "user:pw@Docs.Google.com:443";
          path := "/a/b"; params := "p"; query := "q=1"; fragment := "frag" |}.
Proof. reflexivity. Qed.

Example hostname_full :
  hostname {| scheme := "https"; netloc := "user:pw@Docs.Google.com:443";
          path := "/a/b"; params := "p"; query := "q=1"; fragment := "frag" |}
  = Some "docs.google.com".
Proof. reflexivity. Qed.

Example urlparse_relative :
  urlparse "not a url"
  = Ok {| scheme := ""; netloc := ""; path := "not a url"; params := "";
          query := ""; fragment := "" |}.
Proof. reflexivity. Qed.

Example urlparse_unbalanced : urlparse "http://[docs.google.com/x" = Raise ValueError.
Proof. reflexivity. Qed.
End urlparse_examples.

Example universal_newlines_ex :
  universal_newlines ("a" ++ ["013"; "010"]%char ++ "b" ++ ["013"]%char ++ "c"
                      ++ ["010"; "013"]%char)
  = "a" ++ ["010"]%char ++ "b" ++ ["010"]%char ++ "c" ++ ["010"; "010"]%char.
Proof. reflexivity. Qed.

Example sha256_abc :
  SHA256.hexdigest "abc"
  = "ba7816bf8f01cfea414140de5dae2223b00361a396177a9cb410ff61f20015ad".
Proof. vm_compute. reflexivity. Qed.

Example sha256_empty :
  SHA256.hexdigest ""
  = "e3b0c44298fc1c149afbf4c8996fb92427ae41e4649b934ca495991b7852b855".
Proof. vm_compute. reflexivity. Qed.

(** ** Characters and text *)

Arguments ascii_eqb : simpl never.
Arguments isspace : simpl never.
Arguments isalnum : simpl never.
Arguments lower_char : simpl never.

Lemma has_char_cons (c d : ascii) (s : str) :
  has_char c (d :: s) = ascii_eqb c d || has_char c s.
Proof. reflexivity. Qed.

Lemma ascii_eqb_eq (a b : ascii) : ascii_eqb a b = true <-> a = b.
Proof. apply Ascii.eqb_eq. Qed.

Lemma ascii_eqb_refl (a : ascii) : ascii_eqb a a = true.
Proof. apply Ascii.eqb_refl. Qed.

Lemma str_eqb_eq (a b : str) : str_eqb a b = true <-> a = b.
Proof.
  revert b. induction a as [|x a IH]; intros [|y b]; simpl; try (split; congruence).
  rewrite andb_true_iff, ascii_eqb_eq, IH. split; [intros [-> ->]|intros [= -> ->]]; auto.
Qed.

Lemma safe_not_space (c : ascii) :
  isalnum c || ascii_eqb c "_" || ascii_eqb c "-" = true -> isspace c = false.
Proof.
  destruct c as [[] [] [] [] [] [] [] []]; vm_compute; congruence.
Qed.

Lemma rstrip_no_space (s : str) :
  Forall (fun c => isspace c = false) s -> rstrip s = s.
Proof.
  induction 1 as [|c s Hc _ IH]; simpl; [reflexivity|].
  rewrite IH, Hc. destruct s; reflexivity.
Qed.

(** ** The regular expressions *)

Lemma re_sub_cons (p : pattern) (repl : str) (c : ascii) (s : str) :
  re_sub p repl (c :: s)
  = match p (c :: s) with
    | Some (S n) => repl ++ re_sub p repl (skipn n s)
    | _ => c :: re_sub p repl s
    end.
Proof. simp re_sub. destruct (p (c :: s)) as [[|n]|]; reflexivity. Qed.

Lemma re_split_from_cons (p : pattern) (cur : str) (c : ascii) (s : str) :
  re_split_from p cur (c :: s)
  = match p (c :: s) with
    | Some (S n) => cur :: re_split_from p [] (skipn n s)
    | _ => re_split_from p (cur ++ [c]) s
    end.
Proof. simp re_split_from. destruct (p (c :: s)) as [[|n]|]; reflexivity. Qed.

Lemma hyphenate_runs_cons (c : ascii) (s : str) :
  flat_map hyphenate (runs (c :: s))
  = if isspace c
    then "-" ++ flat_map hyphenate (runs (skipn (count_space s) s))
    else c :: flat_map hyphenate (runs s).
Proof.
  revert c. induction s as [|d s IH]; intros c.
  - simpl. destruct (isspace c); reflexivity.
  - specialize (IH d). change (runs (c :: d :: s)) with
      (match runs (d :: s) with
       | (b, r) :: rest =>
           if Bool.eqb b (isspace c) then (b, c :: r) :: rest
           else (isspace c, [c]) :: (b, r) :: rest
       | [] => [(isspace c, [c])]
       end).
    change (count_space (d :: s)) with (if isspace d then S (count_space s) else 0).
    assert (Hhd : exists r rest, runs (d :: s) = (isspace d, r) :: rest).
    { simpl. destruct (runs s) as [|[b r] rest]; [eauto|].
      destruct (Bool.eqb b (isspace d)) eqn:E; [|eauto].
      apply Bool.eqb_prop in E. subst. eauto. }
    destruct Hhd as (r & rest & Hr). rewrite Hr in *.
    destruct (isspace c) eqn:Hc, (isspace d) eqn:Hd; simpl in *;
      rewrite ?Hr; try reflexivity; try exact IH.
Qed.

Lemma re_sub_spaces_runs (s : str) :
  re_sub re_spaces "-" s = flat_map hyphenate (runs s).
Proof.
  remember (length s) as n eqn:Hn. revert s Hn.
  induction n as [n IH] using lt_wf_ind. intros [|c s] Hn; [reflexivity|].
  rewrite re_sub_cons, hyphenate_runs_cons. unfold re_spaces. simpl count_space.
  simpl in Hn. destruct (isspace c).
  - rewrite (IH (length (skipn (count_space s) s))); [reflexivity| |reflexivity].
    rewrite length_skipn. lia.
  - simpl. f_equal. apply (IH (length s)); [lia|reflexivity].
Qed.

(** ** Entry.basename *)

Lemma safe_characters_spec (c : ascii) :
  existsb (ascii_eqb c) safe_characters = ascii_eqb c "_" || ascii_eqb c "-".
Proof. unfold safe_characters. simpl. rewrite orb_false_r. reflexivity. Qed.

Lemma basename_safe (e : Entry) :
  Forall (fun c => isalnum c || ascii_eqb c "_" || ascii_eqb c "-" = true) (slug (title e)).
Proof.
  unfold slug. apply List.Forall_forall. intros c Hc.
  apply filter_In in Hc. tauto.
Qed.

(** C5. The basename of an entry is its title lowercased, with every
    maximal run of whitespace replaced by one hyphen and every character
    that is neither alphanumeric nor [_] nor [-] removed; it is determined
    by the title alone, so deriving it again from the same title gives the
    same text. *)
Theorem basename_is_slug (e : Entry) :
  basename e = slug (title e)
  /\ forall e', title e' = title e -> basename e' = basename e.
Proof.
  assert (Hslug : forall x, basename x = slug (title x)).
  { intros x. unfold basename.
    rewrite re_sub_spaces_runs.
    rewrite (List.filter_ext _ (fun c => isalnum c || ascii_eqb c "_" || ascii_eqb c "-")).
    2:{ intros c. rewrite safe_characters_spec, orb_assoc. reflexivity. }
    apply rstrip_no_space. fold (slug (title x)).
    eapply List.Forall_impl; [|apply basename_safe]. apply safe_not_space. }
  split; [apply Hslug|]. intros e' Ht. rewrite !Hslug, Ht. reflexivity.
Qed.

Example basename_hello_world :
  basename {| title := "Hello World"; emoji_url := "https://example.org/grin.png";
              emoji_name := "grin"; tags := ["fun"; "test"];
              url := "https://docs.google.com/document/d/ABC123/edit" |}
  = "hello-world".
Proof. reflexivity. Qed.

(** ** Entry.split_tags *)

Lemma count_space_app_spaces (a s : str) :
  forallb isspace a = true -> count_space (a ++ s) = length a + count_space s.
Proof.
  induction a as [|c a IH]; simpl; [reflexivity|].
  intros [Hc Ha]%andb_true_iff. rewrite Hc, IH by assumption. reflexivity.
Qed.

Lemma separator_inv (sep : str) :
  is_separator sep = true ->
  exists a b, sep = a ++ "," ++ b
              /\ forallb isspace a = true /\ forallb isspace b = true.
Proof.
  unfold is_separator. induction sep as [|c sep IH]; simpl; [discriminate|].
  destruct (isspace c) eqn:Hc.
  - intros Hs. destruct (IH Hs) as (a & b & -> & Ha & Hb).
    exists (c :: a), b. simpl. rewrite Hc, Ha. auto.
  - simpl. intros [->%ascii_eqb_eq Hr]%andb_true_iff. exists [], sep. auto.
Qed.

Lemma re_split_from_match (p : pattern) (cur : str) (c : ascii) (s : str) (m : nat) :
  p (c :: s) = Some (S m) ->
  re_split_from p cur (c :: s) = cur :: re_split_from p [] (skipn (S m) (c :: s)).
Proof. intros Hp. rewrite re_split_from_cons, Hp. reflexivity. Qed.

(** Past a separator: the piece read so far is complete, and the scan
    goes on after the whitespace that follows the comma. *)
Lemma re_split_separator (cur a b rest : str) :
  forallb isspace a = true -> forallb isspace b = true ->
  re_split_from re_comma cur (a ++ "," ++ b ++ rest)
  = cur :: re_split_from re_comma [] (drop_space rest).
Proof.
  intros Ha Hb.
  assert (Hm : re_comma (a ++ "," ++ b ++ rest)
               = Some (S (length a + (length b + count_space rest)))).
  { unfold re_comma. rewrite count_space_app_spaces by assumption.
    simpl count_space. rewrite Nat.add_0_r, skipn_app, skipn_all, Nat.sub_diag.
    simpl. rewrite count_space_app_spaces by assumption. f_equal. lia. }
  assert (Hs : skipn (S (length a + (length b + count_space rest)))
                     (a ++ "," ++ b ++ rest) = drop_space rest).
  { replace (S (length a + (length b + count_space rest)))
      with (length (a ++ "," ++ b) + count_space rest)
      by (rewrite !length_app; simpl; lia).
    replace (a ++ "," ++ b ++ rest) with ((a ++ "," ++ b) ++ rest)
      by (rewrite <- !app_assoc; reflexivity).
    rewrite skipn_app, skipn_all2 by lia.
    replace (length (a ++ "," ++ b) + count_space rest - length (a ++ "," ++ b))
      with (count_space rest) by lia.
    reflexivity. }
  destruct (a ++ "," ++ b ++ rest) as [|c s] eqn:E.
  - destruct a; discriminate.
  - rewrite (re_split_from_match _ _ _ _ _ Hm), Hs. reflexivity.
Qed.

Lemma re_comma_None (s : str) :
  comma_after_space s = false -> re_comma s = None.
Proof.
  unfold comma_after_space, re_comma, drop_space.
  destruct (skipn (count_space s) s) as [|c r]; [reflexivity|].
  intros ->. reflexivity.
Qed.

Lemma last_cons_nonempty (c d : ascii) (t : str) (x : ascii) :
  List.last (c :: d :: t) x = List.last (d :: t) x.
Proof. reflexivity. Qed.

Lemma no_comma_in_tag (t rest : str) :
  t <> [] -> has_char "," t = false -> isspace (List.last t "x"%char) = false ->
  comma_after_space (t ++ rest) = false.
Proof.
  unfold comma_after_space, drop_space.
  induction t as [|c t IH]; [congruence|]. intros _ Hc Hl.
  rewrite has_char_cons in Hc. apply orb_false_iff in Hc as [Hc Ht].
  simpl. destruct (isspace c) eqn:Hs.
  - destruct t as [|d t]; [simpl in Hl; congruence|].
    apply IH; [discriminate|assumption|].
    rewrite last_cons_nonempty in Hl. exact Hl.
  - simpl. unfold ascii_eqb in *. rewrite Ascii.eqb_sym. exact Hc.
Qed.

(** Inside a tag no match starts: the scan copies the tag to the piece. *)
Lemma re_split_tag (cur t rest : str) :
  has_char "," t = false -> isspace (List.last t "x"%char) = false ->
  re_split_from re_comma cur (t ++ rest) = re_split_from re_comma (cur ++ t) rest.
Proof.
  revert cur. induction t as [|c t IH]; intros cur Hc Hl.
  - rewrite app_nil_r. reflexivity.
  - simpl app. rewrite re_split_from_cons.
    rewrite (re_comma_None (c :: t ++ rest)).
    2:{ apply (no_comma_in_tag (c :: t)); [discriminate|assumption..]. }
    rewrite IH.
    + rewrite <- app_assoc. reflexivity.
    + rewrite has_char_cons in Hc. apply orb_false_iff in Hc. tauto.
    + destruct t; [reflexivity|exact Hl].
Qed.

Lemma plain_tag_inv (t : str) :
  plain_tag t = true ->
  has_char "," t = false /\ isspace (hd "x"%char t) = false
  /\ isspace (List.last t "x"%char) = false.
Proof.
  unfold plain_tag. rewrite !andb_true_iff, !negb_true_iff. tauto.
Qed.

Lemma drop_space_plain (t rest : str) :
  t <> [] -> isspace (hd "x"%char t) = false -> drop_space (t ++ rest) = t ++ rest.
Proof.
  destruct t as [|c t]; [congruence|]. intros _ Hh. simpl in Hh.
  unfold drop_space. simpl. rewrite Hh. reflexivity.
Qed.

Lemma drop_space_separator (a b rest : str) :
  forallb isspace a = true ->
  drop_space (a ++ "," ++ b ++ rest) = [] ++ "," ++ b ++ rest.
Proof.
  intros Ha. unfold drop_space. rewrite count_space_app_spaces by assumption.
  simpl count_space. rewrite Nat.add_0_r, skipn_app, skipn_all, Nat.sub_diag.
  reflexivity.
Qed.

(** Splitting the comma-separated form gives the tags back. *)
Lemma re_split_comma_separated (tags seps : list str) :
  length tags = S (length seps) ->
  forallb plain_tag tags = true -> forallb is_separator seps = true ->
  (forall cur, re_split_from re_comma cur (comma_separated tags seps)
               = match tags with
                 | t :: tags' => (cur ++ t) :: tags'
                 | [] => []
                 end)
  /\ re_split_from re_comma [] (drop_space (comma_separated tags seps)) = tags.
Proof.
  revert seps. induction tags as [|t tags IH]; intros seps Hlen Ht Hs; [discriminate|].
  simpl in Ht. apply andb_true_iff in Ht as [Hp Ht].
  destruct (plain_tag_inv _ Hp) as (Hc & Hh & Hl).
  destruct seps as [|sep seps].
  - destruct tags; [|discriminate]. simpl.
    assert (H1 : forall cur, re_split_from re_comma cur t = [cur ++ t]).
    { intros cur. rewrite <- (app_nil_r t) at 1.
      rewrite re_split_tag by assumption. reflexivity. }
    split; [exact H1|].
    destruct t as [|c t]; [reflexivity|].
    rewrite <- (app_nil_r (c :: t)) at 1.
    rewrite drop_space_plain, app_nil_r by (assumption || discriminate).
    apply H1.
  - simpl in Hs. apply andb_true_iff in Hs as [Hsep Hs].
    destruct (separator_inv _ Hsep) as (a & b & -> & Ha & Hb).
    simpl in Hlen. injection Hlen as Hlen.
    destruct (IH seps Hlen Ht Hs) as [_ IH2].
    assert (Hw : comma_separated (t :: tags) ((a ++ "," ++ b) :: seps)
                 = t ++ a ++ "," ++ b ++ comma_separated tags seps).
    { simpl. rewrite <- !app_assoc. reflexivity. }
    rewrite Hw.
    assert (H1 : forall cur,
               re_split_from re_comma cur (t ++ a ++ "," ++ b ++ comma_separated tags seps)
               = (cur ++ t) :: tags).
    { intros cur. rewrite re_split_tag by assumption.
      rewrite re_split_separator by assumption. rewrite IH2. reflexivity. }
    split; [exact H1|].
    destruct t as [|c t].
    + rewrite app_nil_l, drop_space_separator by assumption.
      rewrite re_split_separator by (assumption || reflexivity).
      rewrite IH2. reflexivity.
    + rewrite drop_space_plain by (assumption || discriminate). apply H1.
Qed.

Lemma mapM_validate_str (l : list str) :
  mapM validate_str (List.map VStr l) = Ok l.
Proof.
  induction l as [|x l IH]; [reflexivity|].
  simpl. rewrite IH. reflexivity.
Qed.

(** C6. A tag list written as one comma-separated string (each comma with
    any whitespace around it) and the same tags given as a list normalize to
    the same sequence, in the same order: the string is split at each
    separator, the list is kept as it is. *)
Theorem normalize_tags_forms_agree (tags seps : list str) :
  length tags = S (length seps) ->
  forallb plain_tag tags = true ->
  forallb is_separator seps = true ->
  normalize_tags (VStr (comma_separated tags seps)) = Ok tags
  /\ normalize_tags (VList (List.map VStr tags)) = Ok tags
  /\ split_tags (VList (List.map VStr tags)) = VList (List.map VStr tags).
Proof.
  intros Hlen Ht Hs. unfold normalize_tags, validate_list_str, split_tags.
  rewrite !mapM_validate_str. split; [|split; reflexivity].
  f_equal. unfold re_split.
  destruct (re_split_comma_separated tags seps Hlen Ht Hs) as [H1 _].
  rewrite H1. destruct tags; [discriminate|reflexivity].
Qed.

Lemma normalize_tags_forms_agree_witness :
  normalize_tags (VStr "fun, test") = Ok ["fun"; "test"]
  /\ normalize_tags (VList [VStr "fun"; VStr "test"]) = Ok ["fun"; "test"]
  /\ split_tags (VList [VStr "fun"; VStr "test"]) = VList [VStr "fun"; VStr "test"].
Proof.
  apply (normalize_tags_forms_agree ["fun"; "test"] [", "]); reflexivity.
Defined.

(** ** Entry.google_drive_file_id *)

Lemma parse_rel_lstrip (s : str) :
  parse_rel (lstrip_chars "/" s) = parse_rel s.
Proof.
  unfold parse_rel. induction s as [|c s IH]; [reflexivity|].
  cbn [lstrip_chars]. rewrite has_char_cons. cbn [has_char existsb].
  rewrite orb_false_r.
  destruct (ascii_eqb c "/") eqn:E; [|reflexivity].
  rewrite IH. simpl split_on. rewrite E. reflexivity.
Qed.

Lemma parts_mkPath (s : str) : parts (mkPath s) = path_segments s.
Proof.
  unfold mkPath, splitroot, path_segments.
  destruct s as [|c s]; [reflexivity|].
  destruct (ascii_eqb c "/") eqn:E; [|reflexivity].
  fold (parse_rel (c :: s)). rewrite <- (parse_rel_lstrip (c :: s)).
  destruct (_ =? 2); reflexivity.
Qed.

(** C4. When the URL parses, the document identity is the final segment
    of its path once a trailing [edit] segment is stripped, provided the
    host is [docs.google.com]; with any other host the derivation fails its
    assertion. *)
Theorem google_drive_file_id_spec `{IpAddress} (e : Entry) (r : ParseResult) :
  urlparse (url e) = Ok r ->
  (hostname r = Some "docs.google.com" ->
   google_drive_file_id e = Ok (document_identity (path r)))
  /\ (hostname r <> Some "docs.google.com" ->
      google_drive_file_id e = Raise AssertionError).
Proof.
  intros Hr. unfold google_drive_file_id. rewrite Hr. simpl.
  split; intros Hh.
  - rewrite bool_decide_eq_true_2 by assumption. f_equal.
    unfold document_identity, name. rewrite <- parts_mkPath.
    destruct (str_eqb _ "edit"); reflexivity.
  - rewrite bool_decide_eq_false_2 by assumption. reflexivity.
Qed.

Lemma google_drive_file_id_spec_witness :
  urlparse (H := unchecked_brackets) (url hello_world) = Ok hello_world_url
  /\ hostname hello_world_url = Some "docs.google.com"
  /\ google_drive_file_id (H := unchecked_brackets) hello_world = Ok "ABC123".
Proof.
  split; [reflexivity|]. split; [reflexivity|].
  apply (google_drive_file_id_spec (H := unchecked_brackets) hello_world hello_world_url);
    reflexivity.
Defined.

Lemma google_drive_file_id_unparsed `{IpAddress} (e : Entry) (x : exn) :
  urlparse (url e) = Raise x -> google_drive_file_id e = Raise x.
Proof. intros Hr. unfold google_drive_file_id. rewrite Hr. reflexivity. Qed.

(** ** Tasks and their targets *)

Lemma mapM_Ok_Forall2 {A B} (f : A -> result B) (l : list A) (ys : list B) :
  mapM f l = Ok ys -> Forall2 (fun x y => f x = Ok y) l ys.
Proof.
  revert ys. induction l as [|x l IH]; intros ys; simpl.
  - intros [= <-]. constructor.
  - destruct (f x) as [y|] eqn:Hx; [|discriminate]. simpl.
    destruct (mapM f l) as [k|]; [|discriminate]. simpl.
    intros [= <-]. constructor; auto.
Qed.

Lemma mapM_Ok_lookup {A B} (f : A -> result B) (l : list A) (ys : list B)
    (i : nat) (x : A) (y : B) :
  mapM f l = Ok ys -> l !! i = Some x -> ys !! i = Some y -> f x = Ok y.
Proof.
  intros Hm%mapM_Ok_Forall2 Hx Hy.
  destruct (Forall2_lookup_l _ _ _ _ _ Hm Hx) as (y' & Hy' & Hf). congruence.
Qed.

Lemma emoji_target_by_suffix `{IpAddress} (e : Entry) (r : ParseResult) :
  urlparse (emoji_url e) = Ok r ->
  emoji_target e
  = with_suffix (joinpath build_dir (emoji_name e)) (suffix (mkPath (path r))).
Proof. intros Hr. unfold emoji_target. rewrite Hr. reflexivity. Qed.

Lemma task_emoji_targets `{IpAddress} (ev : env) (b : Book) (ts : list task)
    (i : nat) (e : Entry) (t : task) :
  task_emoji ev b = Ok ts -> entries b !! i = Some e -> ts !! i = Some t ->
  exists p, emoji_target e = Ok p /\ targets t = [fspath p].
Proof.
  intros Hts He Ht. pose proof (mapM_Ok_lookup _ _ _ _ _ _ Hts He Ht) as Hf.
  simpl in Hf. destruct (metadata_target e); [|discriminate]. simpl in Hf.
  destruct (emoji_target e) as [p|]; [|discriminate]. simpl in Hf.
  injection Hf as <-. eauto.
Qed.

(** C10. The icon target of an entry is determined by its [emoji_name] and
    by the suffix of the path of its [emoji_url]: two entries that agree on
    both derive the same icon target, and their icon-fetch tasks declare
    the same target file. *)
Theorem emoji_target_shared `{IpAddress} (ev : env) (b : Book) (ts : list task)
    (i j : nat) (e1 e2 : Entry) (t1 t2 : task) (r1 r2 : ParseResult) :
  task_emoji ev b = Ok ts ->
  entries b !! i = Some e1 -> entries b !! j = Some e2 ->
  ts !! i = Some t1 -> ts !! j = Some t2 ->
  urlparse (emoji_url e1) = Ok r1 -> urlparse (emoji_url e2) = Ok r2 ->
  emoji_name e1 = emoji_name e2 ->
  suffix (mkPath (path r1)) = suffix (mkPath (path r2)) ->
  emoji_target e1 = emoji_target e2 /\ targets t1 = targets t2.
Proof.
  intros Hts He1 He2 Ht1 Ht2 Hr1 Hr2 Hn Hs.
  assert (Heq : emoji_target e1 = emoji_target e2).
  { rewrite (emoji_target_by_suffix e1 r1 Hr1), (emoji_target_by_suffix e2 r2 Hr2).
    rewrite Hn, Hs. reflexivity. }
  split; [exact Heq|].
  destruct (task_emoji_targets ev b ts i e1 t1 Hts He1 Ht1) as (p1 & Hp1 & ->).
  destruct (task_emoji_targets ev b ts j e2 t2 Hts He2 Ht2) as (p2 & Hp2 & ->).
  congruence.
Qed.

Lemma emoji_target_shared_witness :
  emoji_target (H := unchecked_brackets) hello_world
  = emoji_target (H := unchecked_brackets) second_grin
  /\ targets (emoji_task quiet_env hello_world "build/hello-world.yaml" "build/grin.png")
     = targets (emoji_task quiet_env second_grin "build/another-story.yaml" "build/grin.png").
Proof.
  apply (emoji_target_shared (H := unchecked_brackets) quiet_env
           {| book_title := "Reading List"; entries := [hello_world; second_grin] |}
           [emoji_task quiet_env hello_world "build/hello-world.yaml" "build/grin.png";
            emoji_task quiet_env second_grin "build/another-story.yaml" "build/grin.png"]
           0 1 hello_world second_grin _ _
           {| scheme := "https"; netloc := "example.org"; path := "/img/grin.png";
              params := ""; query := ""; fragment := "" |}
           {| scheme := "http"; netloc := "cdn.example.net"; path := "/a/b/smile.v2.png";
              params := ""; query := "x=1"; fragment := "" |});
    reflexivity.
Defined.

(** ** Loading the configuration *)

Lemma mkEntry_entry_config (e : Entry) : mkEntry (entry_config e) = Ok e.
Proof.
  unfold mkEntry, entry_config. simpl.
  unfold normalize_tags, validate_list_str, split_tags.
  rewrite mapM_validate_str. destruct e; reflexivity.
Qed.

Lemma from_yaml_book_config (b : Book) : from_yaml (book_config b) = Ok b.
Proof.
  unfold from_yaml, book_config. simpl.
  assert (Hm : mapM mkEntry (List.map entry_config (entries b)) = Ok (entries b)).
  { induction (entries b) as [|e l IH]; [reflexivity|].
    simpl. rewrite mkEntry_entry_config, IH. reflexivity. }
  rewrite Hm. destruct b; reflexivity.
Qed.

Lemma download_html_no_identity `{IpAddress} (ev : env) (e : Entry)
    (targets : list str) (w : world) (x : exn) :
  google_drive_file_id e = Raise x -> download_html ev e targets w = (w, Raise x).
Proof. intros Hx. unfold download_html, lift. simpl. unfold mbind, M_bind. rewrite Hx. reflexivity. Qed.

(** C3, counterexample. A configuration whose only entry has the [url]
    text [not a url] loads: the collection is constructed, and the entry's
    identity derivation is what fails, later, for every reading of
    bracketed hosts. *)
Lemma malformed_url_loads :
  from_yaml {| raw_book_title := Some (VStr "Reading List");
               raw_entries :=
                 Some [{| raw_title := Some (VStr "Hello World");
                          raw_emoji_url := Some (VStr "https://example.org/img/grin.png");
                          raw_emoji_name := Some (VStr "grin");
                          raw_tags := Some (VStr "fun, test");
                          raw_url := Some (VStr "not a url") |}] |}
  = Ok {| book_title := "Reading List"; entries := [not_a_url] |}
  /\ forall ip : IpAddress, google_drive_file_id not_a_url = Raise AssertionError.
Proof. split; [reflexivity|]. intros ip. reflexivity. Qed.

(** C3, amended. Loading checks only that [url] is text: the configuration
    of any collection loads, whatever its URLs. An entry whose URL does not
    yield a document identity is found out when its fetch task runs: the
    task raises what the derivation raises, before any request is sent and
    without touching the build directory. *)
Theorem url_checked_at_fetch `{IpAddress} (ev : env) (b : Book) (e : Entry)
    (targets : list str) (w : world) (x : exn) :
  In e (entries b) ->
  google_drive_file_id e = Raise x ->
  from_yaml (book_config b) = Ok b
  /\ download_html ev e targets w = (w, Raise x).
Proof.
  intros _ Hx. split; [apply from_yaml_book_config|].
  apply download_html_no_identity, Hx.
Qed.

Lemma url_checked_at_fetch_witness :
  from_yaml (book_config {| book_title := "Reading List"; entries := [not_a_url] |})
  = Ok {| book_title := "Reading List"; entries := [not_a_url] |}
  /\ download_html (H := unchecked_brackets) quiet_env not_a_url
       ["build/hello-world.raw.html"] empty_world
     = (empty_world, Raise AssertionError).
Proof.
  apply (url_checked_at_fetch (H := unchecked_brackets) quiet_env
           {| book_title := "Reading List"; entries := [not_a_url] |} not_a_url).
  - left. reflexivity.
  - reflexivity.
Defined.

(** ** Substring search and the chapter flags *)

Lemma startswith_spec (s p : str) :
  startswith s p = true <-> exists post, s = p ++ post.
Proof.
  revert s. induction p as [|x p IH]; intros [|y s]; simpl.
  - split; [exists []|]; reflexivity.
  - split; [exists (y :: s)|]; reflexivity.
  - split; [discriminate|]. intros (post & Hp). discriminate.
  - rewrite andb_true_iff, ascii_eqb_eq, IH. split.
    + intros (-> & post & ->). eauto.
    + intros (post & [= -> ->]). eauto.
Qed.

Lemma contains_spec (s p : str) : contains s p = true <-> occurs p s.
Proof.
  unfold occurs. induction s as [|c s IH].
  - change (contains [] p) with (startswith [] p || false).
    rewrite orb_false_r, startswith_spec. split.
    + intros (post & ->). exists [], post. reflexivity.
    + intros (pre & post & Hs). destruct pre; [|discriminate].
      exists post. exact Hs.
  - change (contains (c :: s) p) with (startswith (c :: s) p || contains s p).
    rewrite orb_true_iff, startswith_spec, IH. split.
    + intros [(post & ->)|(pre & post & ->)].
      * exists [], post. reflexivity.
      * exists (c :: pre), post. reflexivity.
    + intros (pre & post & Hs). destruct pre as [|d pre].
      * left. exists post. exact Hs.
      * right. injection Hs as -> ->. eauto.
Qed.

Lemma same_ignoring_case_lower (a b : str) :
  same_ignoring_case a b <-> lower a = lower b.
Proof.
  unfold same_ignoring_case, lower. split.
  - induction 1; simpl; congruence.
  - revert b. induction a as [|x a IH]; intros [|y b]; simpl; try discriminate.
    + constructor.
    + intros [= Hx Ha]. constructor; auto.
Qed.

Lemma occurs_lower (needle hay : str) :
  occurs (lower needle) (lower hay) <-> occurs_ignoring_case needle hay.
Proof.
  unfold occurs, occurs_ignoring_case. split.
  - intros (pre & post & Hh). unfold lower in Hh.
    apply map_eq_app in Hh as (pre' & rest & -> & <- & Hr).
    apply map_eq_app in Hr as (mid & post' & -> & Hm & <-).
    exists pre', mid, post'. split; [reflexivity|].
    apply same_ignoring_case_lower. exact Hm.
  - intros (pre & mid & post & -> & Hm%same_ignoring_case_lower).
    exists (lower pre), (lower post). unfold lower in *.
    rewrite !List.map_app, Hm. reflexivity.
Qed.

(** C2, counterexample. A body that holds the failure marker in another
    case contains it when case is ignored, yet the export-failed flag is
    off. *)
Lemma export_marker_is_case_sensitive :
  occurs_ignoring_case "cannotExportFile" "error: cannotexportfile"
  /\ raw_html_failed_to_export
       (render_args hello_world "grin.png" "error: cannotexportfile") = false.
Proof.
  split; [|reflexivity].
  apply occurs_lower, contains_spec. reflexivity.
Qed.

(** C2, amended. The title flag holds exactly when the lowercased title
    occurs in the lowercased raw HTML, and the tags flag exactly when the
    lowercased form of every tag does; the export-failed flag holds exactly
    when the raw HTML contains the text [cannotExportFile] as it is
    written, case included. *)
Theorem chapter_flags (e : Entry) (emoji_file_name raw_html : str) :
  let c := render_args e emoji_file_name raw_html in
  (raw_html_includes_title c = true <-> occurs (lower (title e)) (lower raw_html))
  /\ (raw_html_includes_tags c = true
      <-> Forall (fun tag => occurs (lower tag) (lower raw_html)) (tags e))
  /\ (raw_html_failed_to_export c = true <-> occurs "cannotExportFile" raw_html).
Proof.
  simpl. split; [|split].
  - apply contains_spec.
  - rewrite forallb_forall, List.Forall_forall. split; intros Ht tag Hin.
    + apply contains_spec, Ht, Hin.
    + apply contains_spec, Ht, Hin.
  - apply contains_spec.
Qed.

(** ** Book.identifier *)

Module SHA256_facts.
Import SHA256.
Local Open Scope Z_scope.

Lemma add32_word (x y : Z) : word (add32 x y).
Proof. unfold word, add32, w32. apply Z.mod_pos_bound. reflexivity. Qed.

Lemma compress_words (hs : state) (block : list Z) : words (compress hs block).
Proof.
  unfold compress.
  destruct (fold_left round _ hs) as [[[[[[[a b] c] d] e] f] g] h].
  destruct hs as [[[[[[[a0 b0] c0] d0] e0] f0] g0] h0].
  repeat split; apply add32_word.
Qed.

Lemma init_words : words init.
Proof. vm_compute. repeat split; congruence. Qed.

Lemma fold_left_invariant {A B} (f : A -> B -> A) (P : A -> Prop) :
  (forall s b, P (f s b)) -> forall bs s, P s -> P (fold_left f bs s).
Proof.
  intros Hf bs. induction bs as [|b bs IH]; intros s Hs; [exact Hs|].
  apply IH, Hf.
Qed.

Lemma digest_words (msg : list ascii) : words (digest msg).
Proof.
  unfold digest. apply fold_left_invariant; [apply compress_words|apply init_words].
Qed.

Lemma hex_value_digit (d : Z) : 0 <= d < 16 -> hex_value (hex_digit d) = d.
Proof.
  intros Hd.
  assert (Hall : forallb (fun k => hex_value (hex_digit (Z.of_nat k)) =? Z.of_nat k)
                         (seq 0 16) = true) by (vm_compute; reflexivity).
  rewrite forallb_forall in Hall.
  assert (Hin : In (Z.to_nat d) (seq 0 16)) by (apply in_seq; lia).
  specialize (Hall _ Hin). rewrite Z2Nat.id in Hall by lia.
  apply Z.eqb_eq, Hall.
Qed.

Lemma nibble_range (x : Z) (k : Z) : 0 <= Z.shiftr x k mod 16 < 16.
Proof. apply Z.mod_pos_bound. reflexivity. Qed.

Lemma unhex_hex_word (x : Z) : word x -> unhex (hex_word x) = x.
Proof.
  unfold word, hex_word, unhex. intros Hx.
  cbn [seq List.map fold_left].
  rewrite !hex_value_digit by apply nibble_range.
  cbn [Nat.sub Z.of_nat Z.mul Pos.mul Pos.of_succ_nat Pos.succ].
  rewrite !Z.shiftr_div_pow2 by lia.
  change (2 ^ 32) with 4294967296 in Hx.
  change (2 ^ 28) with 268435456. change (2 ^ 24) with 16777216.
  change (2 ^ 20) with 1048576. change (2 ^ 16) with 65536.
  change (2 ^ 12) with 4096. change (2 ^ 8) with 256. change (2 ^ 4) with 16.
  change (2 ^ 0) with 1.
  Z.div_mod_to_equations. lia.
Qed.

Lemma hex_word_length (x : Z) : length (hex_word x) = 8%nat.
Proof. reflexivity. Qed.

Lemma hex_word_inj (x y : Z) : word x -> word y -> hex_word x = hex_word y -> x = y.
Proof.
  intros Hx Hy Heq. rewrite <- (unhex_hex_word x Hx), <- (unhex_hex_word y Hy), Heq.
  reflexivity.
Qed.

(** The hexadecimal notation of a digest loses nothing. *)
Lemma hex_state_inj (s t : state) :
  words s -> words t -> hex_state s = hex_state t -> s = t.
Proof.
  destruct s as [[[[[[[a b] c] d] e] f] g] h].
  destruct t as [[[[[[[a' b'] c'] d'] e'] f'] g'] h'].
  unfold words, hex_state.
  intros (Ha & Hb & Hc & Hd & He & Hf & Hg & Hh)
         (Ha' & Hb' & Hc' & Hd' & He' & Hf' & Hg' & Hh') Heq.
  repeat (apply app_inj_1 in Heq as [?%hex_word_inj Heq]; [|assumption..|reflexivity]).
  apply hex_word_inj in Heq; [|assumption..].
  congruence.
Qed.
End SHA256_facts.

Lemma decode_utf8_char (c : ascii) (l : list ascii) :
  decode_utf8 (encode_utf8_char c ++ l) = c :: decode_utf8 l.
Proof. destruct c as [[] [] [] [] [] [] [] []]; reflexivity. Qed.

(** The UTF-8 encoding of a text loses nothing. *)
Lemma decode_encode_utf8 (s : list ascii) : decode_utf8 (encode_utf8 s) = s.
Proof.
  induction s as [|c s IH]; [reflexivity|].
  change (encode_utf8 (c :: s)) with (encode_utf8_char c ++ encode_utf8 s).
  rewrite decode_utf8_char, IH. reflexivity.
Qed.

Lemma encode_utf8_inj (s t : list ascii) : encode_utf8 s = encode_utf8 t -> s = t.
Proof.
  intros Heq. rewrite <- (decode_encode_utf8 s), <- (decode_encode_utf8 t), Heq.
  reflexivity.
Qed.



Example identifier_renamed :
  identifier {| book_title := "Reading List"; entries := [hello_world] |}
  <> identifier {| book_title := "Reading list"; entries := [hello_world] |}.
Proof. vm_compute. congruence. Qed.

(** ** The fetch tasks *)

Lemma task_raw_html_targets `{IpAddress} (ev : env) (b : Book) (ts : list task)
    (i : nat) (e : Entry) (t : task) :
  task_raw_html ev b = Ok ts -> entries b !! i = Some e -> ts !! i = Some t ->
  exists p, raw_html_target e = Ok p /\ targets t = [fspath p]
            /\ actions t = [download_html ev e].
Proof.
  intros Hts He Ht. pose proof (mapM_Ok_lookup _ _ _ _ _ _ Hts He Ht) as Hf.
  simpl in Hf. destruct (metadata_target e); [|discriminate]. simpl in Hf.
  destruct (raw_html_target e) as [p|]; [|discriminate]. simpl in Hf.
  injection Hf as <-. eauto.
Qed.

Lemma download_html_ok `{IpAddress} (ev : env) (e : Entry) (id key tgt : list ascii)
    (resp : response) (rest : list (list ascii)) (w : world) :
  google_drive_file_id e = Ok id ->
  environ ev !! "GOOGLE_API_KEY" = Some key ->
  http ev (export_request id key) = Some resp ->
  io_fault ev tgt = None ->
  download_html ev e (tgt :: rest) w
  = ({| fs := <[tgt := {| content := text resp; mtime := S (clock w) |}]> (fs w);
        clock := S (S (clock w));
        sent := sent w ++ [export_request id key] |}, Ok tt).
Proof.
  intros Hid Hkey Hresp Hio.
  unfold download_html, lift, os_environ, httpx_get, open_w, write, mbind, M_bind.
  rewrite Hid, Hkey. fold (export_request id key). rewrite Hresp. simpl.
  rewrite Hio. unfold set_file. simpl. rewrite insert_insert_eq. reflexivity.
Qed.

(** C9. Whatever the export endpoint answers, success or not, the article
    export fetch task of an entry sends one request and writes the text of
    the response, as it is, to the entry's raw HTML target; the status is
    not looked at, and the failure marker is searched for only when the
    chapter is packaged. *)
Theorem raw_html_task_writes_response `{IpAddress} (ev : env) (b : Book)
    (ts : list task) (i : nat) (e : Entry) (t : task) (id key : list ascii)
    (resp : response) (w : world) :
  task_raw_html ev b = Ok ts -> entries b !! i = Some e -> ts !! i = Some t ->
  google_drive_file_id e = Ok id ->
  environ ev !! "GOOGLE_API_KEY" = Some key ->
  http ev (export_request id key) = Some resp ->
  (forall p, io_fault ev p = None) ->
  exists p w',
    raw_html_target e = Ok p
    /\ run_task t w = (w', Ok tt)
    /\ content <$> fs w' !! fspath p = Some (text resp)
    /\ (forall q, q <> fspath p -> fs w' !! q = fs w !! q)
    /\ sent w' = sent w ++ [export_request id key]
    /\ forall f, raw_html_failed_to_export (render_args e f (text resp))
                 = contains (text resp) "cannotExportFile".
Proof.
  intros Hts He Ht Hid Hkey Hresp Hio.
  destruct (task_raw_html_targets ev b ts i e t Hts He Ht) as (p & Hp & Htg & Hact).
  exists p. eexists. split; [exact Hp|].
  unfold run_task. rewrite Hact, Htg. simpl.
  unfold mbind at 1, M_bind at 1.
  rewrite (download_html_ok ev e id key (fspath p) resp [] w Hid Hkey Hresp (Hio _)).
  split; [reflexivity|]. simpl. split; [|split; [|split]].
  - rewrite lookup_insert_eq. reflexivity.
  - intros q Hq. rewrite lookup_insert_ne by congruence. reflexivity.
  - reflexivity.
  - reflexivity.
Qed.

Lemma raw_html_task_writes_response_witness :
  exists p w',
    raw_html_target hello_world = Ok p
    /\ run_task (raw_html_task (H := unchecked_brackets) export_env hello_world
                   "build/hello-world.yaml" "build/hello-world.raw.html") empty_world
       = (w', Ok tt)
    /\ content <$> fs w' !! fspath p = Some (text forbidden)
    /\ (forall q, q <> fspath p -> fs w' !! q = fs empty_world !! q)
    /\ sent w' = sent empty_world ++ [export_request "ABC123" "secret"]
    /\ forall f, raw_html_failed_to_export (render_args hello_world f (text forbidden))
                 = contains (text forbidden) "cannotExportFile".
Proof.
  apply (raw_html_task_writes_response (H := unchecked_brackets) export_env
           reading_list
           [raw_html_task (H := unchecked_brackets) export_env hello_world
              "build/hello-world.yaml" "build/hello-world.raw.html"]
           0 hello_world _ "ABC123" "secret" forbidden empty_world);
    reflexivity.
Defined.

Lemma open_write_raises (ev : env) (t : list ascii) (data : list ascii)
    (w w' : world) (x : exn) :
  (open_w ev t ;; write ev t data) w = (w', Raise x) ->
  fs w' = fs w
  \/ exists n, io_fault ev t = Some (WriteFails n)
               /\ fs w' = <[t := {| content := firstn n data; mtime := S (clock w) |}]> (fs w).
Proof.
  unfold mbind, M_bind, open_w, write, set_file.
  destruct (io_fault ev t) as [[|n]|] eqn:Hio; simpl; rewrite ?Hio.
  - intros [= <- _]. left. reflexivity.
  - intros [= <- _]. right. exists n. simpl. rewrite insert_insert_eq. auto.
  - discriminate.
Qed.

Lemma download_html_raises `{IpAddress} (ev : env) (e : Entry)
    (tgts : list (list ascii)) (w w' : world) (x : exn) :
  download_html ev e tgts w = (w', Raise x) ->
  fs w' = fs w
  \/ exists id key resp,
       google_drive_file_id e = Ok id
       /\ environ ev !! "GOOGLE_API_KEY" = Some key
       /\ http ev (export_request id key) = Some resp
       /\ failed_write ev tgts (text resp) w w'.
Proof.
  unfold download_html, lift, os_environ, httpx_get, first_target.
  unfold mbind at 1 2 3 4, M_bind at 1 2 3 4.
  destruct (google_drive_file_id e) as [id|]; [|intros [= <- _]; auto].
  destruct (environ ev !! _) as [key|]; [|intros [= <- _]; auto].
  fold (export_request id key).
  destruct (http ev (export_request id key)) as [resp|] eqn:Hresp;
    [|intros [= <- _]; auto].
  destruct tgts as [|t rest]; [intros [= <- _]; auto|].
  intros Hw. apply open_write_raises in Hw as [Hw|(n & Hio & Hw)]; [auto|].
  right. exists id, key, resp. repeat (split; [reflexivity || assumption|]).
  exists t, rest, n. auto.
Qed.

Lemma download_emoji_raises (ev : env) (e : Entry)
    (tgts : list (list ascii)) (w w' : world) (x : exn) :
  download_emoji ev e tgts w = (w', Raise x) ->
  fs w' = fs w
  \/ exists resp,
       http ev (icon_request e) = Some resp
       /\ failed_write ev tgts (body resp) w w'.
Proof.
  unfold download_emoji, lift, httpx_get, first_target.
  unfold mbind at 1 2, M_bind at 1 2.
  fold (icon_request e).
  destruct (http ev (icon_request e)) as [resp|] eqn:Hresp; [|intros [= <- _]; auto].
  destruct tgts as [|t rest]; [intros [= <- _]; auto|].
  intros Hw. apply open_write_raises in Hw as [Hw|(n & Hio & Hw)]; [auto|].
  right. exists resp. split; [reflexivity|]. exists t, rest, n. auto.
Qed.




(** ** make_epub *)

Arguments add_chapter : simpl never.

Section make_epub_facts.
Context `{IpAddress} `{Jinja} `{EbookLib}.
Variable ev : env.

Lemma html_items_app (l1 l2 : list item) :
  html_items (l1 ++ l2) = html_items l1 ++ html_items l2.
Proof. unfold html_items. apply omap_app. Qed.

Lemma add_chapter_ok (i : nat) (entry : Entry) (eb eb' : EpubBook)
    (chs chs' : list EpubHtml) (w w1 : world) :
  add_chapter i entry (eb, chs) w = (w1, Ok (eb', chs')) ->
  w1 = w
  /\ exists ch, chapter_of w i entry ch /\ chs' = chs ++ [ch]
                /\ html_items (eb_items eb') = html_items (eb_items eb) ++ [ch]
                /\ same_header eb' eb.
Proof.
  unfold add_chapter, lift, read_text, read. unfold mbind, M_bind, mret, M_ret.
  destruct (emoji_target entry) as [p|] eqn:Hp; [|discriminate].
  destruct (fs w !! fspath p) as [img|]; [|discriminate].
  destruct (raw_html_target entry) as [r|] eqn:Hr; [|discriminate].
  destruct (fs w !! fspath r) as [f|] eqn:Hf; [|discriminate].
  intros [= <- <- <-]. split; [reflexivity|].
  eexists. split; [exists p, r, f; eauto|].
  split; [reflexivity|]. split; [|repeat split].
  simpl. rewrite !html_items_app. simpl. rewrite app_nil_r. reflexivity.
Qed.

Lemma add_chapters_ok (es : list Entry) :
  forall (i : nat) (eb eb' : EpubBook) (chs chs' : list EpubHtml) (w w1 : world),
    add_chapters i es (eb, chs) w = (w1, Ok (eb', chs')) ->
    w1 = w
    /\ exists new,
         chs' = chs ++ new
         /\ length new = length es
         /\ (forall k entry ch, es !! k = Some entry -> new !! k = Some ch ->
                                chapter_of w (i + k) entry ch)
         /\ html_items (eb_items eb') = html_items (eb_items eb) ++ new
         /\ same_header eb' eb.
Proof.
  induction es as [|entry es IH]; intros i eb eb' chs chs' w w1.
  - cbv [add_chapters mret M_ret]. intros [= <- <- <-]. split; [reflexivity|]. exists [].
    rewrite !app_nil_r. repeat split. intros k entry ch Hk. discriminate.
  - simpl. unfold mbind at 1, M_bind at 1.
    destruct (add_chapter i entry (eb, chs) w) as [w2 [[eb2 chs2]|]] eqn:Hstep;
      [|discriminate].
    apply add_chapter_ok in Hstep as (-> & ch & Hch & -> & Hit & Hhd).
    intros Hrest. apply IH in Hrest as (-> & new & -> & Hlen & Hall & Hit' & Hhd').
    split; [reflexivity|]. exists (ch :: new).
    split; [rewrite <- app_assoc; reflexivity|].
    split; [simpl; congruence|]. split; [|split].
    + intros [|k] e c; simpl.
      * intros [= <-] [= <-]. rewrite Nat.add_0_r. exact Hch.
      * intros He Hc. replace (i + S k) with (S i + k) by lia. eauto.
    + rewrite Hit', Hit, <- app_assoc. reflexivity.
    + unfold same_header in *. intuition congruence.
Qed.

(** [make_epub], step by step: the cover image is read, then for each
    entry its icon and its raw HTML, then the stylesheet; the document is
    handed to the packaging library last. *)
Lemma make_epub_unfold (output : list ascii) (book : Book) (w : world) :
  make_epub ev output book w
  = match fs w !! fspath (cover_image_target book) with
    | None => (w, Raise FileNotFoundError)
    | Some cover =>
        match add_chapters 0 (entries book)
                (initial_document book (content cover), []) w with
        | (w1, Raise x) => (w1, Raise x)
        | (w1, Ok (eb, chs)) =>
            match fs w1 !! "stylesheets/style.css" with
            | None => (w1, Raise FileNotFoundError)
            | Some css =>
                write_epub ev output
                  (finished_document eb chs (universal_newlines (content css))) w1
            end
        end
    end.
Proof.
  unfold make_epub, read_text, read. unfold mbind, M_bind, mret, M_ret.
  destruct (fs w !! fspath (cover_image_target book)) as [cover|]; [|reflexivity].
  fold (initial_document book (content cover)).
  destruct (add_chapters 0 (entries book) _ w) as [w1 [[eb chs]|x]]; [|reflexivity].
  destruct (fs w1 !! "stylesheets/style.css") as [css|]; reflexivity.
Qed.

Lemma add_chapter_world (i : nat) (entry : Entry) (st : EpubBook * list EpubHtml)
    (w w1 : world) (r : result (EpubBook * list EpubHtml)) :
  add_chapter i entry st w = (w1, r) -> w1 = w.
Proof.
  destruct st as [eb chs].
  unfold add_chapter, lift, read_text, read. unfold mbind, M_bind, mret, M_ret.
  destruct (emoji_target entry) as [p|]; [|congruence].
  destruct (fs w !! fspath p) as [img|]; [|congruence].
  destruct (raw_html_target entry) as [q|]; [|congruence].
  destruct (fs w !! fspath q) as [f|]; congruence.
Qed.

Lemma add_chapters_world (es : list Entry) :
  forall i st w w1 r, add_chapters i es st w = (w1, r) -> w1 = w.
Proof.
  induction es as [|entry es IH]; intros i st w w1 r.
  - cbv [add_chapters mret M_ret]. congruence.
  - simpl. unfold mbind at 1, M_bind at 1.
    destruct (add_chapter i entry st w) as [w2 [st2|x]] eqn:Hstep.
    + apply add_chapter_world in Hstep as ->. apply IH.
    + apply add_chapter_world in Hstep as ->. congruence.
Qed.

Lemma add_chapters_succeeds (w : world) (es : list Entry) :
  Forall (entry_fetched w) es ->
  forall i st, exists st', add_chapters i es st w = (w, Ok st').
Proof.
  induction 1 as [|entry es (p & r & Hp & [img Himg] & Hr & [f Hf]) _ IH];
    intros i [eb chs]; simpl.
  - eexists. reflexivity.
  - assert (Hstep : exists st', add_chapter i entry (eb, chs) w = (w, Ok st')).
    { unfold add_chapter, lift, read_text, read, mbind, M_bind, mret, M_ret.
      repeat (first [rewrite Hp|rewrite Himg|rewrite Hr|rewrite Hf]; cbn beta iota).
      eexists. reflexivity. }
    destruct Hstep as [st' Hstep].
    unfold mbind at 1, M_bind at 1. rewrite Hstep. apply IH.
Qed.

(** Once every input is in place, [make_epub] reads them, changing
    nothing, and hands the document it has assembled to the packaging
    library. *)
Lemma make_epub_hands_over (output : list ascii) (book : Book) (w : world) :
  is_Some (fs w !! fspath (cover_image_target book)) ->
  is_Some (fs w !! "stylesheets/style.css") ->
  Forall (entry_fetched w) (entries book) ->
  exists cover css eb chs,
    fs w !! fspath (cover_image_target book) = Some cover
    /\ fs w !! "stylesheets/style.css" = Some css
    /\ add_chapters 0 (entries book) (initial_document book (content cover), []) w
       = (w, Ok (eb, chs))
    /\ make_epub ev output book w
       = write_epub ev output
           (finished_document eb chs (universal_newlines (content css))) w.
Proof.
  intros [cover Hcover] [css Hcss] Hes.
  destruct (add_chapters_succeeds w (entries book) Hes 0
              (initial_document book (content cover), [])) as [[eb chs] Hloop].
  exists cover, css, eb, chs.
  split; [exact Hcover|]. split; [exact Hcss|]. split; [exact Hloop|].
  rewrite make_epub_unfold, Hcover, Hloop, Hcss. reflexivity.
Qed.

End make_epub_facts.

Lemma fetched_inputs :
  is_Some (fs fetched !! fspath (cover_image_target reading_list))
  /\ is_Some (fs fetched !! "stylesheets/style.css")
  /\ Forall (entry_fetched (H := unchecked_brackets) fetched) (entries reading_list).
Proof.
  split; [eexists; vm_compute; reflexivity|].
  split; [eexists; vm_compute; reflexivity|].
  repeat constructor.
  exists (mkPath "build/grin.png"), (mkPath "build/hello-world.raw.html").
  split; [vm_compute; reflexivity|]. split; [eexists; vm_compute; reflexivity|].
  split; [vm_compute; reflexivity|]. eexists; vm_compute; reflexivity.
Defined.


(** * Further properties of the script *)

(** ** Entry.basename: its alphabet *)

Lemma lower_char_not_upper (c : ascii) : isupper (lower_char c) = false.
Proof. destruct c as [[] [] [] [] [] [] [] []]; vm_compute; reflexivity. Qed.

Lemma lower_char_fixed (c : ascii) : isupper c = false -> lower_char c = c.
Proof. unfold lower_char. intros ->. reflexivity. Qed.

Lemma safe_not_separator (c : ascii) :
  isalnum c || ascii_eqb c "_" || ascii_eqb c "-" = true ->
  ascii_eqb c "/" = false /\ ascii_eqb c "." = false /\ ascii_eqb c "," = false.
Proof.
  destruct c as [[] [] [] [] [] [] [] []]; vm_compute; intuition congruence.
Qed.

Lemma hyphen_not_upper : isupper "-" = false.
Proof. reflexivity. Qed.

Lemma in_hyphenate_runs (s : list ascii) (c : ascii) :
  In c (flat_map hyphenate (runs s)) -> c = "-"%char \/ In c s.
Proof.
  remember (length s) as n eqn:Hn. revert s Hn c.
  induction n as [n IH] using lt_wf_ind. intros [|d s] Hn c; [intros []|].
  rewrite hyphenate_runs_cons. simpl in Hn. destruct (isspace d).
  - intros [<-|Hc]; [left; reflexivity|].
    apply (IH (length (skipn (count_space s) s))) in Hc;
      [|rewrite length_skipn; lia|reflexivity].
    destruct Hc as [Hc|Hc]; [auto|]. right. right.
    rewrite <- (firstn_skipn (count_space s) s). apply in_or_app. auto.
  - intros [<-|Hc]; [right; left; reflexivity|].
    apply (IH (length s)) in Hc; [|lia|reflexivity].
    destruct Hc; [auto|right; right; assumption].
Qed.

Lemma basename_slug (e : Entry) : basename e = slug (title e).
Proof.
  unfold basename. rewrite re_sub_spaces_runs.
  rewrite (List.filter_ext _ (fun c => isalnum c || ascii_eqb c "_" || ascii_eqb c "-")).
  2:{ intros c. rewrite safe_characters_spec, orb_assoc. reflexivity. }
  apply rstrip_no_space. fold (slug (title e)).
  eapply List.Forall_impl; [|apply basename_safe]. apply safe_not_space.
Qed.

Lemma not_upper_not_capital (c : ascii) :
  isupper c = false -> in_range 65 90 c = false.
Proof. destruct c as [[] [] [] [] [] [] [] []]; vm_compute; congruence. Qed.

Lemma slug_not_upper (t : list ascii) :
  Forall (fun c => isupper c = false) (slug t).
Proof.
  apply List.Forall_forall. intros c Hc. unfold slug in Hc.
  apply filter_In in Hc as [Hin _].
  apply in_hyphenate_runs in Hin as [->|Hin]; [reflexivity|].
  unfold lower in Hin. apply in_map_iff in Hin as (c0 & <- & _).
  apply lower_char_not_upper.
Qed.

(** X1. A basename holds only alphanumeric characters, [_] and [-]: it
    never contains whitespace, a slash, a dot or a comma, nor any of the
    capital letters [A] to [Z]. *)
Theorem basename_alphabet (e : Entry) :
  Forall (fun c =>
            isalnum c || ascii_eqb c "_" || ascii_eqb c "-" = true
            /\ in_range 65 90 c = false /\ isspace c = false
            /\ ascii_eqb c "/" = false /\ ascii_eqb c "." = false
            /\ ascii_eqb c "," = false)
         (basename e).
Proof.
  rewrite basename_slug.
  pose proof (basename_safe e) as Hsafe. pose proof (slug_not_upper (title e)) as Hup.
  rewrite List.Forall_forall in *. intros c Hc.
  specialize (Hsafe c Hc). specialize (Hup c Hc).
  destruct (safe_not_separator c Hsafe) as (H1 & H2 & H3).
  pose proof (safe_not_space c Hsafe). pose proof (not_upper_not_capital c Hup). auto 10.
Qed.

Lemma lower_fixed (s : list ascii) :
  Forall (fun c => isupper c = false) s -> lower s = s.
Proof.
  induction 1 as [|c s Hc _ IH]; [reflexivity|].
  unfold lower in *. simpl. rewrite IH, (lower_char_fixed c Hc). reflexivity.
Qed.

Lemma hyphenate_runs_no_space (s : list ascii) :
  Forall (fun c => isspace c = false) s -> flat_map hyphenate (runs s) = s.
Proof.
  induction 1 as [|c s Hc _ IH]; [reflexivity|].
  rewrite hyphenate_runs_cons, Hc, IH. reflexivity.
Qed.

Lemma filter_all {A} (f : A -> bool) (l : list A) :
  Forall (fun x => f x = true) l -> List.filter f l = l.
Proof.
  induction 1 as [|x l Hx _ IH]; [reflexivity|]. simpl. rewrite Hx, IH. reflexivity.
Qed.

(** X2. Taking the basename of a basename changes nothing: an entry whose
    title is already a basename keeps it. *)
Theorem basename_idempotent (e e' : Entry) :
  title e' = basename e -> basename e' = basename e.
Proof.
  intros Ht. rewrite (basename_slug e'), Ht, (basename_slug e). unfold slug at 1.
  pose proof (basename_safe e) as Hsafe.
  rewrite lower_fixed by apply slug_not_upper.
  rewrite hyphenate_runs_no_space.
  - apply filter_all, Hsafe.
  - eapply List.Forall_impl; [|exact Hsafe]. apply safe_not_space.
Qed.

Lemma basename_idempotent_witness :
  basename {| title := "hello-world"; emoji_url := ""; emoji_name := ""; tags := [];
              url := "" |}
  = basename hello_world.
Proof. apply (basename_idempotent hello_world). reflexivity. Defined.

(** ** The target paths of an entry *)

Lemma ascii_eqb_sym (a b : ascii) : ascii_eqb a b = ascii_eqb b a.
Proof. apply Ascii.eqb_sym. Qed.

Lemma split_on_absent (sep : ascii) (s : list ascii) :
  has_char sep s = false -> split_on sep s = [s].
Proof.
  induction s as [|c s IH]; [reflexivity|].
  rewrite has_char_cons. intros [Hc Hs]%orb_false_iff.
  simpl. rewrite ascii_eqb_sym, Hc, (IH Hs). reflexivity.
Qed.

Lemma partition_absent (sep : ascii) (s : list ascii) :
  has_char sep s = false -> partition sep s = (s, false, []).
Proof.
  induction s as [|c s IH]; [reflexivity|].
  rewrite has_char_cons. intros [Hc Hs]%orb_false_iff.
  simpl. rewrite ascii_eqb_sym, Hc, (IH Hs). reflexivity.
Qed.

Lemma has_char_app (c : ascii) (a b : list ascii) :
  has_char c (a ++ b) = has_char c a || has_char c b.
Proof. unfold has_char. apply existsb_app. Qed.

Lemma has_char_rev (c : ascii) (s : list ascii) :
  has_char c (rev s) = has_char c s.
Proof.
  induction s as [|d s IH]; [reflexivity|].
  simpl rev. rewrite has_char_app, IH, !has_char_cons. simpl.
  rewrite orb_false_r. apply orb_comm.
Qed.

Lemma rpartition_absent (sep : ascii) (s : list ascii) :
  has_char sep s = false -> rpartition sep s = ([], false, s).
Proof.
  intros Hs. unfold rpartition.
  rewrite partition_absent by (rewrite has_char_rev; exact Hs). reflexivity.
Qed.

Lemma has_char_false (c : ascii) (s : list ascii) :
  Forall (fun d => ascii_eqb d c = false) s -> has_char c s = false.
Proof.
  induction 1 as [|d s Hd _ IH]; [reflexivity|].
  rewrite has_char_cons, ascii_eqb_sym, Hd, IH. reflexivity.
Qed.

(** A name without slash or dot, put under the build directory and given a
    suffix. *)
Lemma with_suffix_plain_name (s sfx : list ascii) :
  s <> [] -> has_char "/" s = false -> has_char "." s = false ->
  has_char "/" sfx = false -> startswith sfx "." = true -> str_eqb sfx "." = false ->
  with_suffix (joinpath build_dir s) sfx
  = Ok {| root := []; parts := ["build"; s ++ sfx] |}.
Proof.
  intros Hne Hslash Hdot Hs1 Hs2 Hs3.
  assert (Hp : mkPath s = {| root := []; parts := [s] |}).
  { unfold mkPath, splitroot. destruct s as [|c s]; [congruence|].
    rewrite has_char_cons in Hslash. apply orb_false_iff in Hslash as [Hc Hslash'].
    rewrite ascii_eqb_sym, Hc. unfold parse_rel.
    rewrite split_on_absent by (rewrite has_char_cons, Hc; exact Hslash').
    assert (Hd : str_eqb (c :: s) "." = false).
    { apply not_true_is_false. intros Heq%str_eqb_eq. rewrite Heq in Hdot. discriminate. }
    cbn [List.filter]. rewrite Hd. reflexivity. }
  unfold joinpath. rewrite Hp. cbn [root parts]. change (parts build_dir) with ["build"].
  change (root build_dir) with (@nil ascii).
  unfold with_suffix. rewrite Hs1.
  assert (Hv : (negb (str_eqb sfx "") && negb (startswith sfx ".")) || str_eqb sfx "." = false).
  { rewrite Hs2, Hs3, andb_false_r. reflexivity. }
  rewrite Hv. unfold name, suffix, name. cbn [parts app List.last root removelast].
  rewrite (rpartition_absent "." s Hdot).
  destruct s as [|c s]; [congruence|].
  change (length (@nil ascii)) with 0. rewrite Nat.sub_0_r, firstn_all. reflexivity.
Qed.

Lemma with_suffix_build_dir (sfx : list ascii) :
  has_char "/" sfx = false -> startswith sfx "." = true -> str_eqb sfx "." = false ->
  with_suffix (joinpath build_dir []) sfx
  = Ok {| root := []; parts := ["build" ++ sfx] |}.
Proof.
  intros Hs1 Hs2 Hs3. unfold with_suffix. rewrite Hs1.
  assert (Hv : (negb (str_eqb sfx "") && negb (startswith sfx ".")) || str_eqb sfx "." = false).
  { rewrite Hs2, Hs3, andb_false_r. reflexivity. }
  rewrite Hv. reflexivity.
Qed.

Lemma basename_plain (e : Entry) :
  has_char "/" (basename e) = false /\ has_char "." (basename e) = false.
Proof.
  pose proof (basename_safe e) as Hsafe. rewrite <- basename_slug in Hsafe.
  split; apply has_char_false; (eapply List.Forall_impl; [|exact Hsafe]);
    intros c Hc; apply (safe_not_separator c Hc).
Qed.

(** X3. The metadata, raw HTML and readable HTML targets of an entry are
    always defined. They are [build/<basename>] with the extension of their
    kind; an entry whose basename is empty (a title without any letter,
    digit, [_], [-] or whitespace) gets [build.yaml], [build.raw.html] and
    [build.readable.html], beside the build directory and not in it. *)
Theorem entry_targets (e : Entry) :
  (basename e <> [] ->
   fspath <$> metadata_target e = Ok ("build/" ++ basename e ++ ".yaml")
   /\ fspath <$> raw_html_target e = Ok ("build/" ++ basename e ++ ".raw.html")
   /\ fspath <$> readable_html_target e
      = Ok ("build/" ++ basename e ++ ".readable.html"))
  /\ (basename e = [] ->
      fspath <$> metadata_target e = Ok "build.yaml"
      /\ fspath <$> raw_html_target e = Ok "build.raw.html"
      /\ fspath <$> readable_html_target e = Ok "build.readable.html").
Proof.
  destruct (basename_plain e) as [Hslash Hdot].
  unfold metadata_target, raw_html_target, readable_html_target. split.
  - intros Hne.
    rewrite !(with_suffix_plain_name (basename e)) by (assumption || reflexivity).
    repeat split.
  - intros ->. rewrite !with_suffix_build_dir by reflexivity. repeat split.
Qed.

Lemma entry_targets_witness :
  (fspath <$> metadata_target hello_world = Ok "build/hello-world.yaml"
   /\ fspath <$> raw_html_target hello_world = Ok "build/hello-world.raw.html"
   /\ fspath <$> readable_html_target hello_world = Ok "build/hello-world.readable.html")
  /\ (fspath <$> metadata_target punctuation_only = Ok "build.yaml"
      /\ fspath <$> raw_html_target punctuation_only = Ok "build.raw.html"
      /\ fspath <$> readable_html_target punctuation_only = Ok "build.readable.html").
Proof.
  split.
  - apply (proj1 (entry_targets hello_world)). discriminate.
  - apply (proj2 (entry_targets punctuation_only)). reflexivity.
Defined.

(** ** Entry.split_tags: how many tags a string gives *)

Lemma count_comma_app (a b : list ascii) :
  count_comma (a ++ b) = count_comma a + count_comma b.
Proof. unfold count_comma. rewrite List.filter_app, length_app. reflexivity. Qed.

Lemma count_comma_spaces (s : list ascii) :
  count_comma (firstn (count_space s) s) = 0.
Proof.
  induction s as [|c s IH]; [reflexivity|].
  simpl count_space. destruct (isspace c) eqn:Hc; [|reflexivity].
  simpl firstn. unfold count_comma in *. simpl List.filter.
  destruct (ascii_eqb c ",") eqn:E; [|exact IH].
  apply ascii_eqb_eq in E. subst c. discriminate.
Qed.

Lemma count_comma_skip_spaces (s : list ascii) :
  count_comma (skipn (count_space s) s) = count_comma s.
Proof.
  pose proof (count_comma_app (firstn (count_space s) s) (skipn (count_space s) s)) as Happ.
  rewrite firstn_skipn, count_comma_spaces in Happ. rewrite Happ. reflexivity.
Qed.

Lemma re_comma_Some (s : list ascii) (m : nat) :
  re_comma s = Some m ->
  exists m', m = S m' /\ count_comma s = S (count_comma (skipn m s)).
Proof.
  unfold re_comma.
  destruct (skipn (count_space s) s) as [|c r] eqn:Hr; [discriminate|].
  destruct (ascii_eqb c ",") eqn:Hc; [|discriminate].
  intros [= <-]. exists (count_space s + count_space r). split; [lia|].
  replace (count_space s + 1 + count_space r)
    with (S (count_space r) + count_space s) by lia.
  rewrite <- skipn_skipn. rewrite Hr. simpl skipn.
  rewrite count_comma_skip_spaces, <- (count_comma_skip_spaces s), Hr.
  unfold count_comma. simpl List.filter. rewrite Hc. reflexivity.
Qed.

Lemma re_comma_None_head (c : ascii) (s : list ascii) :
  re_comma (c :: s) = None -> ascii_eqb c "," = false.
Proof.
  unfold re_comma. simpl count_space.
  destruct (isspace c) eqn:Hs.
  - intros _. apply not_true_is_false. intros ->%ascii_eqb_eq. discriminate.
  - simpl. destruct (ascii_eqb c ","); [discriminate|reflexivity].
Qed.

Lemma re_split_from_count (s : list ascii) :
  forall cur, has_char "," cur = false ->
    length (re_split_from re_comma cur s) = S (count_comma s)
    /\ Forall (fun t => has_char "," t = false) (re_split_from re_comma cur s).
Proof.
  remember (length s) as n eqn:Hn. revert s Hn.
  induction n as [n IH] using lt_wf_ind. intros [|c s] Hn cur Hcur.
  - simp re_split_from. split; [reflexivity|]. constructor; [exact Hcur|constructor].
  - rewrite re_split_from_cons. simpl in Hn.
    destruct (re_comma (c :: s)) as [m|] eqn:Hm.
    + destruct (re_comma_Some _ _ Hm) as (m' & -> & Hcount).
      destruct (IH (length (skipn m' s))) with (s := skipn m' s) (cur := @nil ascii)
        as [Hlen Hall]; [rewrite length_skipn; lia|reflexivity|reflexivity|].
      simpl skipn in Hcount. split; [simpl; rewrite Hlen, Hcount; reflexivity|].
      constructor; assumption.
    + pose proof (re_comma_None_head _ _ Hm) as Hc.
      destruct (IH (length s)) with (s := s) (cur := cur ++ [c]) as [Hlen Hall];
        [lia|reflexivity| |].
      * rewrite has_char_app, Hcur, has_char_cons, ascii_eqb_sym, Hc. reflexivity.
      * split; [|exact Hall]. rewrite Hlen. unfold count_comma. simpl List.filter.
        rewrite Hc. reflexivity.
Qed.

(** X4. A tags string always normalizes, to one tag more than it has
    commas, none of which holds a comma; the empty string gives one empty
    tag, not an empty list. *)
Theorem string_tags_count (s : list ascii) :
  exists l, normalize_tags (VStr s) = Ok l
            /\ length l = S (count_comma s)
            /\ Forall (fun t => has_char "," t = false) l.
Proof.
  exists (re_split re_comma s). unfold normalize_tags, validate_list_str, split_tags.
  rewrite mapM_validate_str. split; [reflexivity|].
  apply re_split_from_count. reflexivity.
Qed.

Example string_tags_empty : normalize_tags (VStr "") = Ok [""].
Proof. reflexivity. Qed.

(** ** Loading: what is accepted, what is refused *)

Lemma result_only_validation {A} (f : value -> result A) (o : option value) (x : exn) :
  (forall v y, f v = Raise y -> y = ValidationError) ->
  required o ≫= f = Raise x -> x = ValidationError.
Proof.
  intros Hf. destruct o as [v|]; simpl.
  - apply Hf.
  - intros [= <-]. reflexivity.
Qed.

Lemma validate_str_error (v : value) (y : exn) :
  validate_str v = Raise y -> y = ValidationError.
Proof. destruct v; simpl; congruence. Qed.

Lemma mapM_validate_str_error (l : list value) (y : exn) :
  mapM validate_str l = Raise y -> y = ValidationError.
Proof.
  induction l as [|v l IH]; simpl; [discriminate|].
  destruct (validate_str v) eqn:Hv; simpl.
  - destruct (mapM validate_str l); simpl; [discriminate|].
    intros [= <-]. apply IH. reflexivity.
  - intros [= <-]. eapply validate_str_error, Hv.
Qed.

Lemma normalize_tags_error (v : value) (y : exn) :
  normalize_tags v = Raise y -> y = ValidationError.
Proof.
  unfold normalize_tags. destruct v as [s|l|]; simpl.
  - rewrite mapM_validate_str. discriminate.
  - apply mapM_validate_str_error.
  - congruence.
Qed.

Lemma mkEntry_error (x : raw_entry) (y : exn) :
  mkEntry x = Raise y -> y = ValidationError.
Proof.
  unfold mkEntry.
  destruct (required (raw_title x) ≫= validate_str) eqn:H1; simpl;
    [|intros [= <-]; eapply result_only_validation, H1; apply validate_str_error].
  destruct (required (raw_emoji_url x) ≫= validate_str) eqn:H2; simpl;
    [|intros [= <-]; eapply result_only_validation, H2; apply validate_str_error].
  destruct (required (raw_emoji_name x) ≫= validate_str) eqn:H3; simpl;
    [|intros [= <-]; eapply result_only_validation, H3; apply validate_str_error].
  destruct (required (raw_tags x) ≫= normalize_tags) eqn:H4; simpl;
    [|intros [= <-]; eapply result_only_validation, H4; apply normalize_tags_error].
  destruct (required (raw_url x) ≫= validate_str) eqn:H5; simpl;
    [|intros [= <-]; eapply result_only_validation, H5; apply validate_str_error].
  discriminate.
Qed.

Lemma mapM_mkEntry_error (l : list raw_entry) (y : exn) :
  mapM mkEntry l = Raise y -> y = ValidationError.
Proof.
  induction l as [|x l IH]; simpl; [discriminate|].
  destruct (mkEntry x) eqn:Hx; simpl.
  - destruct (mapM mkEntry l); simpl; [discriminate|].
    intros [= <-]. apply IH. reflexivity.
  - intros [= <-]. eapply mkEntry_error, Hx.
Qed.

Lemma mapM_raises {A B} (f : A -> result B) (l : list A) (x : A) (y : exn) :
  In x l -> f x = Raise y -> exists z, mapM f l = Raise z.
Proof.
  induction l as [|a l IH]; intros Hin Hx; [destruct Hin|].
  simpl. destruct (f a) eqn:Ha; simpl; [|eauto].
  destruct Hin as [->|Hin]; [congruence|].
  destruct (IH Hin Hx) as [z ->]. simpl. eauto.
Qed.



(** ** Book.identifier: its format *)

Lemma hex_digit_is_hex (x : Z) :
  (0 <= x < 16)%Z -> is_hex_digit (SHA256.hex_digit x) = true.
Proof.
  intros Hx.
  assert (Hcases : (x = 0 \/ x = 1 \/ x = 2 \/ x = 3 \/ x = 4 \/ x = 5 \/ x = 6
                    \/ x = 7 \/ x = 8 \/ x = 9 \/ x = 10 \/ x = 11 \/ x = 12
                    \/ x = 13 \/ x = 14 \/ x = 15)%Z) by lia.
  repeat (destruct Hcases as [->|Hcases]; [reflexivity|]). subst x. reflexivity.
Qed.

Lemma hex_word_format (x : Z) :
  length (SHA256.hex_word x) = 8
  /\ Forall (fun c => is_hex_digit c = true) (SHA256.hex_word x).
Proof.
  unfold SHA256.hex_word. split; [rewrite length_map; reflexivity|].
  apply List.Forall_forall. intros c (i & <- & _)%in_map_iff.
  apply hex_digit_is_hex. apply Z.mod_pos_bound. reflexivity.
Qed.

(** X7. The identifier of a collection is always 64 characters long, each
    a lowercase hexadecimal digit. *)
Theorem identifier_format (b : Book) :
  length (identifier b) = 64
  /\ Forall (fun c => is_hex_digit c = true) (identifier b).
Proof.
  unfold identifier, SHA256.hexdigest, SHA256.hex_state.
  destruct (SHA256.digest _) as [[[[[[[x1 x2] x3] x4] x5] x6] x7] x8].
  split.
  - rewrite !length_app. rewrite !(proj1 (hex_word_format _)). reflexivity.
  - repeat (apply Forall_app; split); apply hex_word_format.
Qed.

(** ** Entry.google_drive_file_id: the shape of an identity *)

Lemma split_on_pieces (sep : ascii) (s : list ascii) :
  Forall (fun x => has_char sep x = false) (split_on sep s).
Proof.
  induction s as [|c s IH]; simpl.
  - constructor; [reflexivity|constructor].
  - destruct (ascii_eqb c sep) eqn:Hc.
    + constructor; [reflexivity|exact IH].
    + destruct (split_on sep s) as [|p ps]; inversion IH; subst;
        constructor; try assumption; try constructor;
        rewrite has_char_cons, ascii_eqb_sym, Hc; simpl; assumption || reflexivity.
Qed.

Lemma path_segments_pieces (s : list ascii) :
  Forall (fun x => has_char "/" x = false /\ str_eqb x "" = false /\ str_eqb x "." = false)
         (path_segments s).
Proof.
  unfold path_segments. apply List.Forall_forall. intros x [Hin Hx]%filter_In.
  pose proof (split_on_pieces "/" s) as Hp. rewrite List.Forall_forall in Hp.
  apply andb_true_iff in Hx as [H1 H2]. rewrite negb_true_iff in H1, H2. auto.
Qed.

Lemma last_Forall {A} (P : A -> Prop) (l : list A) (d : A) :
  Forall P l -> P d -> P (List.last l d).
Proof.
  induction 1 as [|x l Hx Hl IH]; intros Hd; [exact Hd|].
  destruct l; [exact Hx|]. apply IH, Hd.
Qed.

Lemma removelast_Forall {A} (P : A -> Prop) (l : list A) :
  Forall P l -> Forall P (removelast l).
Proof.
  induction 1 as [|x l Hx Hl IH]; [constructor|].
  destruct l; [constructor|]. constructor; assumption.
Qed.

(** X8. A document identity, when one is derived, is a single path
    segment or nothing: it holds no slash and it is not a lone dot. *)
Theorem google_drive_file_id_segment `{IpAddress} (e : Entry) (id : list ascii) :
  google_drive_file_id e = Ok id ->
  has_char "/" id = false /\ str_eqb id "." = false.
Proof.
  unfold google_drive_file_id.
  destruct (urlparse (url e)) as [r|]; simpl; [|discriminate].
  destruct (bool_decide _); [|discriminate].
  intros [= <-]. unfold name, parent.
  pose proof (path_segments_pieces (path r)) as Hp. rewrite <- parts_mkPath in Hp.
  assert (Hgoal : forall l,
             Forall (fun x => has_char "/" x = false /\ str_eqb x "" = false
                              /\ str_eqb x "." = false) l ->
             has_char "/" (List.last l []) = false
             /\ str_eqb (List.last l []) "." = false).
  { intros l Hl.
    apply (last_Forall (fun x => has_char "/" x = false /\ str_eqb x "." = false)).
    - eapply List.Forall_impl; [|exact Hl]. simpl. tauto.
    - split; reflexivity. }
  destruct (str_eqb _ "edit"); simpl; apply Hgoal; [apply removelast_Forall|]; exact Hp.
Qed.

Lemma google_drive_file_id_segment_witness :
  has_char "/" "ABC123" = false /\ str_eqb "ABC123" "." = false.
Proof.
  apply (google_drive_file_id_segment (H := unchecked_brackets) hello_world).
  reflexivity.
Defined.

(** ** Entry.emoji_target for plain icon names *)

Lemma partition_found (sep : ascii) (s a b : list ascii) :
  partition sep s = (a, true, b) -> s = a ++ sep :: b.
Proof.
  revert a b. induction s as [|c s IH]; intros a b; simpl; [discriminate|].
  destruct (ascii_eqb c sep) eqn:Hc.
  - intros [= <- <-]. apply ascii_eqb_eq in Hc. subst. reflexivity.
  - destruct (partition sep s) as [[a' f] b'] eqn:Hp. intros [= <- -> <-].
    simpl. rewrite (IH a' b' eq_refl). reflexivity.
Qed.

Lemma rpartition_found (sep : ascii) (s a b : list ascii) :
  rpartition sep s = (a, true, b) -> s = a ++ sep :: b.
Proof.
  unfold rpartition. destruct (partition sep (rev s)) as [[a' f] b'] eqn:Hp.
  destruct f; [|discriminate]. intros [= <- <-].
  apply partition_found in Hp. apply (f_equal (@rev ascii)) in Hp.
  rewrite rev_involutive in Hp. rewrite Hp. simpl. rewrite rev_app_distr. simpl.
  rewrite <- app_assoc. reflexivity.
Qed.

(** The suffix of a path is empty, or a dot followed by at least one
    character, without a slash. *)
Lemma suffix_shape (s : list ascii) :
  let sfx := suffix (mkPath s) in
  has_char "/" sfx = false
  /\ ((negb (str_eqb sfx "") && negb (startswith sfx ".")) || str_eqb sfx "." = false).
Proof.
  unfold suffix, name. rewrite parts_mkPath.
  assert (Hn : has_char "/" (List.last (path_segments s) []) = false).
  { apply (last_Forall (fun x => has_char "/" x = false)); [|reflexivity].
    eapply List.Forall_impl; [|apply path_segments_pieces]. simpl. tauto. }
  destruct (rpartition "." (List.last (path_segments s) [])) as [[stem found] ext] eqn:Hr.
  destruct stem as [|c stem]; [split; reflexivity|].
  destruct ext as [|d ext]; [split; reflexivity|].
  destruct found; [|split; reflexivity].
  apply rpartition_found in Hr. rewrite Hr in Hn.
  rewrite has_char_app in Hn. apply orb_false_iff in Hn as [_ Hn].
  rewrite has_char_cons in Hn. apply orb_false_iff in Hn as [_ Hn].
  split.
  - change ("." ++ d :: ext) with ("."%char :: d :: ext).
    rewrite has_char_cons, Hn. reflexivity.
  - reflexivity.
Qed.

Lemma with_suffix_plain (s sfx : list ascii) :
  s <> [] -> has_char "/" s = false -> has_char "." s = false ->
  has_char "/" sfx = false ->
  (negb (str_eqb sfx "") && negb (startswith sfx ".")) || str_eqb sfx "." = false ->
  fspath <$> with_suffix (joinpath build_dir s) sfx = Ok ("build/" ++ s ++ sfx).
Proof.
  intros Hne Hslash Hdot Hs1 Hv.
  assert (Hp : mkPath s = {| root := []; parts := [s] |}).
  { unfold mkPath, splitroot. destruct s as [|c s]; [congruence|].
    rewrite has_char_cons in Hslash. apply orb_false_iff in Hslash as [Hc Hslash'].
    rewrite ascii_eqb_sym, Hc. unfold parse_rel.
    rewrite split_on_absent by (rewrite has_char_cons, Hc; exact Hslash').
    assert (Hd : str_eqb (c :: s) "." = false).
    { apply not_true_is_false. intros Heq%str_eqb_eq. rewrite Heq in Hdot. discriminate. }
    cbn [List.filter]. rewrite Hd. reflexivity. }
  unfold joinpath. rewrite Hp. cbn [root parts]. change (parts build_dir) with ["build"].
  change (root build_dir) with (@nil ascii).
  unfold with_suffix. rewrite Hs1, Hv.
  unfold name, suffix, name. cbn [parts app List.last root removelast].
  rewrite (rpartition_absent "." s Hdot).
  destruct s as [|c s]; [congruence|].
  change (length (@nil ascii)) with 0. rewrite Nat.sub_0_r, firstn_all. reflexivity.
Qed.

(** X9. For an icon name that is not empty and holds neither slash nor
    dot, and an icon URL that parses, the icon target is
    [build/<emoji_name>] followed by the suffix of the URL's path, or by
    nothing when that path has no suffix. *)
Theorem emoji_target_plain `{IpAddress} (e : Entry) (r : ParseResult) :
  urlparse (emoji_url e) = Ok r ->
  emoji_name e <> [] ->
  has_char "/" (emoji_name e) = false -> has_char "." (emoji_name e) = false ->
  fspath <$> emoji_target e
  = Ok ("build/" ++ emoji_name e ++ suffix (mkPath (path r))).
Proof.
  intros Hr Hne Hslash Hdot. unfold emoji_target. rewrite Hr. simpl.
  destruct (suffix_shape (path r)) as [Hs Hv].
  apply with_suffix_plain; assumption.
Qed.

Lemma emoji_target_plain_witness :
  fspath <$> emoji_target (H := unchecked_brackets) second_grin
  = Ok ("build/" ++ "grin" ++ suffix (mkPath "/a/b/smile.v2.png")).
Proof.
  apply (emoji_target_plain (H := unchecked_brackets) second_grin
           {| scheme := "http"; netloc := "cdn.example.net"; path := "/a/b/smile.v2.png";
              params := ""; query := "x=1"; fragment := "" |});
    (reflexivity || discriminate).
Defined.

Example emoji_target_dotted_name :
  fspath <$> emoji_target (H := unchecked_brackets)
               {| title := "T"; emoji_url := "https://example.org/i/smile.png";
                  emoji_name := "grin.v2"; tags := []; url := "" |}
  = Ok "build/grin.png".
Proof. reflexivity. Qed.

Example emoji_target_absolute_name :
  fspath <$> emoji_target (H := unchecked_brackets)
               {| title := "T"; emoji_url := "https://example.org/i/smile.png";
                  emoji_name := "/tmp/grin"; tags := []; url := "" |}
  = Ok "/tmp/grin.png".
Proof. reflexivity. Qed.

(** ** The icon fetch task *)

Lemma task_emoji_actions `{IpAddress} (ev : env) (b : Book) (ts : list task)
    (i : nat) (e : Entry) (t : task) :
  task_emoji ev b = Ok ts -> entries b !! i = Some e -> ts !! i = Some t ->
  exists p, emoji_target e = Ok p /\ targets t = [fspath p]
            /\ actions t = [download_emoji ev e].
Proof.
  intros Hts He Ht. pose proof (mapM_Ok_lookup _ _ _ _ _ _ Hts He Ht) as Hf.
  simpl in Hf. destruct (metadata_target e); [|discriminate]. simpl in Hf.
  destruct (emoji_target e) as [p|]; [|discriminate]. simpl in Hf.
  injection Hf as <-. eauto.
Qed.

Lemma download_emoji_ok (ev : env) (e : Entry) (tgt : list ascii)
    (resp : response) (rest : list (list ascii)) (w : world) :
  http ev (icon_request e) = Some resp ->
  io_fault ev tgt = None ->
  download_emoji ev e (tgt :: rest) w
  = ({| fs := <[tgt := {| content := body resp; mtime := S (clock w) |}]> (fs w);
        clock := S (S (clock w));
        sent := sent w ++ [icon_request e] |}, Ok tt).
Proof.
  intros Hresp Hio.
  unfold download_emoji, lift, httpx_get, open_w, write, mbind, M_bind.
  fold (icon_request e). rewrite Hresp. simpl.
  rewrite Hio. unfold set_file. simpl. rewrite insert_insert_eq. reflexivity.
Qed.

(** X10. The icon fetch task of an entry needs no credential: it sends one
    request, to the entry's [emoji_url] and without parameters, and writes
    the bytes of the response, as they are, to the entry's icon target; no
    other file changes. *)
Theorem emoji_task_writes_icon `{IpAddress} (ev : env) (b : Book)
    (ts : list task) (i : nat) (e : Entry) (t : task) (resp : response) (w : world) :
  task_emoji ev b = Ok ts -> entries b !! i = Some e -> ts !! i = Some t ->
  http ev (icon_request e) = Some resp ->
  (forall p, io_fault ev p = None) ->
  exists p w',
    emoji_target e = Ok p
    /\ run_task t w = (w', Ok tt)
    /\ content <$> fs w' !! fspath p = Some (body resp)
    /\ (forall q, q <> fspath p -> fs w' !! q = fs w !! q)
    /\ sent w' = sent w ++ [icon_request e].
Proof.
  intros Hts He Ht Hresp Hio.
  destruct (task_emoji_actions ev b ts i e t Hts He Ht) as (p & Hp & Htg & Hact).
  exists p. eexists. split; [exact Hp|].
  unfold run_task. rewrite Hact, Htg. simpl.
  unfold mbind at 1, M_bind at 1.
  rewrite (download_emoji_ok ev e (fspath p) resp [] w Hresp (Hio _)).
  split; [reflexivity|]. simpl. split; [|split].
  - rewrite lookup_insert_eq. reflexivity.
  - intros q Hq. rewrite lookup_insert_ne by congruence. reflexivity.
  - reflexivity.
Qed.

Lemma emoji_task_writes_icon_witness :
  exists p w',
    emoji_target (H := unchecked_brackets) hello_world = Ok p
    /\ run_task (emoji_task export_env hello_world "build/hello-world.yaml"
                   "build/grin.png") empty_world = (w', Ok tt)
    /\ content <$> fs w' !! fspath p = Some (body forbidden)
    /\ (forall q, q <> fspath p -> fs w' !! q = fs empty_world !! q)
    /\ sent w' = sent empty_world ++ [icon_request hello_world].
Proof.
  apply (emoji_task_writes_icon (H := unchecked_brackets) export_env reading_list
           [emoji_task export_env hello_world "build/hello-world.yaml" "build/grin.png"]
           0 hello_world _ forbidden empty_world);
    reflexivity.
Defined.

(** ** The article export fetch: credential and transport failures *)

(** X11. Without the [GOOGLE_API_KEY] variable the article export fetch
    raises a KeyError before anything happens: no request is sent and no
    file is touched. When the request itself fails, the transport error is
    raised after that one request and the files are as before: the target
    is not created. *)
Theorem download_html_before_response `{IpAddress} (ev : env) (e : Entry)
    (id : list ascii) (tgts : list (list ascii)) (w : world) :
  google_drive_file_id e = Ok id ->
  (environ ev !! "GOOGLE_API_KEY" = None ->
   download_html ev e tgts w = (w, Raise KeyError))
  /\ (forall key,
        environ ev !! "GOOGLE_API_KEY" = Some key ->
        http ev (export_request id key) = None ->
        download_html ev e tgts w
        = ({| fs := fs w; clock := clock w; sent := sent w ++ [export_request id key] |},
           Raise TransportError)).
Proof.
  intros Hid. unfold download_html, lift, os_environ, httpx_get, mbind, M_bind.
  rewrite Hid. split.
  - intros ->. reflexivity.
  - intros key -> Hresp. fold (export_request id key). rewrite Hresp. reflexivity.
Qed.

Lemma download_html_before_response_witness :
  (environ quiet_env !! "GOOGLE_API_KEY" = None ->
   download_html (H := unchecked_brackets) quiet_env hello_world
     ["build/hello-world.raw.html"] empty_world = (empty_world, Raise KeyError))
  /\ (forall key,
        environ quiet_env !! "GOOGLE_API_KEY" = Some key ->
        http quiet_env (export_request "ABC123" key) = None ->
        download_html (H := unchecked_brackets) quiet_env hello_world
          ["build/hello-world.raw.html"] empty_world
        = ({| fs := fs empty_world; clock := clock empty_world;
              sent := sent empty_world ++ [export_request "ABC123" key] |},
           Raise TransportError)).
Proof.
  apply (download_html_before_response (H := unchecked_brackets) quiet_env hello_world
           "ABC123" ["build/hello-world.raw.html"] empty_world).
  reflexivity.
Defined.

(** ** The tasks of the article export fetch *)

Lemma entry_target_file (e : Entry) (ext : list ascii) :
  has_char "/" ext = false -> startswith ext "." = true -> str_eqb ext "." = false ->
  exists p, with_suffix (joinpath build_dir (basename e)) ext = Ok p
            /\ fspath p = entry_file e ext.
Proof.
  intros H1 H2 H3. destruct (basename_plain e) as [Hslash Hdot]. unfold entry_file.
  destruct (basename e) as [|c s] eqn:Hb.
  - rewrite with_suffix_build_dir by assumption. eexists. split; reflexivity.
  - rewrite with_suffix_plain_name by (assumption || discriminate).
    eexists. split; reflexivity.
Qed.

Lemma mapM_total {A B} (f : A -> result B) (g : A -> B) (l : list A) :
  (forall x, f x = Ok (g x)) -> mapM f l = Ok (List.map g l).
Proof.
  intros Hf. induction l as [|x l IH]; [reflexivity|].
  simpl. rewrite Hf, IH. reflexivity.
Qed.

(** X12. The article export fetch tasks can always be generated: one task
    per entry, in the order of the entries, named by the entry's basename,
    depending on the entry's metadata file and producing its raw HTML file.
    Entries with the same basename therefore get the same task name and
    the same target. *)
Theorem task_raw_html_total `{IpAddress} (ev : env) (b : Book) :
  task_raw_html ev b
  = Ok (List.map (fun e => {| task_name := basename e;
                              file_dep := [entry_file e ".yaml"];
                              targets := [entry_file e ".raw.html"];
                              actions := [download_html ev e] |})
                 (entries b)).
Proof.
  unfold task_raw_html. apply mapM_total. intros e.
  unfold metadata_target, raw_html_target.
  destruct (entry_target_file e ".yaml") as (p & -> & <-); try reflexivity.
  destruct (entry_target_file e ".raw.html") as (q & -> & <-); reflexivity.
Qed.

(** ** make_epub: what it reads before it packages *)

Section make_epub_more.
Context `{IpAddress} `{Jinja} `{EbookLib}.
Variable ev : env.

Lemma add_chapter_fetched (i : nat) (entry : Entry) (st st' : EpubBook * list EpubHtml)
    (w w1 : world) :
  add_chapter i entry st w = (w1, Ok st') -> entry_fetched w entry.
Proof.
  destruct st as [eb chs].
  unfold add_chapter, lift, read_text, read. unfold mbind, M_bind, mret, M_ret.
  destruct (emoji_target entry) as [p|] eqn:Hp; [|discriminate].
  destruct (fs w !! fspath p) as [img|] eqn:Himg; [|discriminate].
  destruct (raw_html_target entry) as [r|] eqn:Hr; [|discriminate].
  destruct (fs w !! fspath r) as [f|] eqn:Hf; [|discriminate].
  intros _. exists p, r. rewrite Himg, Hf. eauto.
Qed.

Lemma add_chapters_fetched (es : list Entry) :
  forall i st st' w w1,
    add_chapters i es st w = (w1, Ok st') -> Forall (entry_fetched w) es.
Proof.
  induction es as [|entry es IH]; intros i st st' w w1; [constructor|].
  simpl. unfold mbind at 1, M_bind at 1.
  destruct (add_chapter i entry st w) as [w2 [st2|x]] eqn:Hstep; [|discriminate].
  pose proof (add_chapter_world _ _ _ _ _ _ Hstep) as ->.
  intros Hrest. constructor; [eapply add_chapter_fetched, Hstep|eapply IH, Hrest].
Qed.

(** X13. Until it hands the document to the packaging library,
    [make_epub] only reads. When the cover image, an icon, a raw HTML file
    or the stylesheet is missing, or an icon target cannot be derived, it
    raises before the library is called, with every file as it was and no
    request sent; the library is called only when all of them are there,
    and on the build directory as [make_epub] found it. *)
Theorem make_epub_frame (output : list ascii) (book : Book) (w : world) :
  (exists x, make_epub ev output book w = (w, Raise x))
  \/ (is_Some (fs w !! fspath (cover_image_target book))
      /\ is_Some (fs w !! "stylesheets/style.css")
      /\ Forall (entry_fetched w) (entries book)
      /\ exists doc, make_epub ev output book w = write_epub ev output doc w).
Proof.
  rewrite make_epub_unfold.
  destruct (fs w !! fspath (cover_image_target book)) as [cover|]; [|eauto].
  destruct (add_chapters 0 (entries book) _ w) as [w1 [[eb chs]|x]] eqn:Hloop;
    pose proof (add_chapters_world _ _ _ _ _ _ Hloop) as ->; [|eauto].
  apply add_chapters_fetched in Hloop.
  destruct (fs w !! "stylesheets/style.css") as [css|]; [|eauto].
  right. eauto 10.
Qed.
End make_epub_more.

Example make_epub_without_inputs :
  make_epub (H := unchecked_brackets) (H0 := title_and_body) (H1 := titles_only)
    quiet_env "build/book.epub" reading_list metadata_written
  = (metadata_written, Raise FileNotFoundError).
Proof. vm_compute. reflexivity. Qed.

(** ** make_epub: the items of the document *)

Section make_epub_layout.
Context `{IpAddress} `{Jinja} `{EbookLib}.
Variable ev : env.

Lemma add_chapter_items (i : nat) (entry : Entry) (eb eb' : EpubBook)
    (chs chs' : list EpubHtml) (w w1 : world) :
  add_chapter i entry (eb, chs) w = (w1, Ok (eb', chs')) ->
  exists icon ch,
    icon_of w entry icon /\ chapter_of w i entry ch
    /\ chs' = chs ++ [ch]
    /\ eb_items eb' = eb_items eb ++ [Image (fst icon) (snd icon); Html ch]
    /\ same_header eb' eb.
Proof.
  unfold add_chapter, lift, read_text, read. unfold mbind, M_bind, mret, M_ret.
  destruct (emoji_target entry) as [p|] eqn:Hp; [|discriminate].
  destruct (fs w !! fspath p) as [img|] eqn:Himg; [|discriminate].
  destruct (raw_html_target entry) as [r|] eqn:Hr; [|discriminate].
  destruct (fs w !! fspath r) as [f|] eqn:Hf; [|discriminate].
  intros [= <- <- <-]. exists (name p, content img). eexists.
  split; [exists p, img; auto|]. split; [exists p, r, f; eauto|].
  split; [reflexivity|]. split; [|repeat split].
  simpl. rewrite <- app_assoc. reflexivity.
Qed.

Lemma chapter_items_app (icons1 icons2 : list (list ascii * list ascii))
    (chs1 chs2 : list EpubHtml) :
  length icons1 = length chs1 ->
  chapter_items (icons1 ++ icons2) (chs1 ++ chs2)
  = chapter_items icons1 chs1 ++ chapter_items icons2 chs2.
Proof.
  revert chs1. induction icons1 as [|[n d] icons1 IH]; intros [|ch chs1]; simpl;
    try discriminate; [reflexivity|].
  intros [= Hlen]. rewrite (IH chs1 Hlen). reflexivity.
Qed.

Lemma add_chapters_items (es : list Entry) :
  forall (i : nat) (eb eb' : EpubBook) (chs chs' : list EpubHtml) (w w1 : world),
    add_chapters i es (eb, chs) w = (w1, Ok (eb', chs')) ->
    exists icons new,
      chs' = chs ++ new
      /\ Forall2 (icon_of w) es icons
      /\ length new = length es
      /\ (forall k ch, new !! k = Some ch ->
                       html_file_name ch = "chapter_" ++ format_02 (i + k + 1) ++ ".xhtml")
      /\ eb_items eb' = eb_items eb ++ chapter_items icons new
      /\ same_header eb' eb.
Proof.
  induction es as [|entry es IH]; intros i eb eb' chs chs' w w1.
  - cbv [add_chapters mret M_ret]. intros [= <- <- <-]. exists [], [].
    rewrite !app_nil_r. repeat split; [constructor|]. intros k ch Hk. discriminate.
  - simpl. unfold mbind at 1, M_bind at 1.
    destruct (add_chapter i entry (eb, chs) w) as [w2 [[eb2 chs2]|]] eqn:Hstep;
      [|discriminate].
    pose proof (add_chapter_world _ _ _ _ _ _ Hstep) as ->.
    apply add_chapter_items in Hstep as ([n d] & ch & Hicon & Hch & -> & Hit & Hhd).
    intros Hrest.
    apply IH in Hrest as (icons & new & -> & Hicons & Hlen & Hnames & Hit' & Hhd').
    exists ((n, d) :: icons), (ch :: new).
    split; [rewrite <- app_assoc; reflexivity|].
    split; [constructor; assumption|].
    split; [simpl; congruence|]. split; [|split].
    + intros [|k] c; simpl.
      * intros [= <-]. destruct Hch as (p & r & f & _ & _ & _ & ->). simpl.
        rewrite Nat.add_0_r. reflexivity.
      * intros Hc. rewrite (Hnames k c Hc).
        replace (i + S k + 1) with (S i + k + 1) by lia. reflexivity.
    + rewrite Hit', Hit, <- app_assoc. reflexivity.
    + unfold same_header in *. intuition congruence.
Qed.

(** The document [make_epub] hands over when every input is in place,
    taken apart. *)
Lemma make_epub_inv (output : list ascii) (book : Book) (w : world) :
  is_Some (fs w !! fspath (cover_image_target book)) ->
  is_Some (fs w !! "stylesheets/style.css") ->
  Forall (entry_fetched w) (entries book) ->
  exists cover css eb icons chs,
    fs w !! fspath (cover_image_target book) = Some cover
    /\ fs w !! "stylesheets/style.css" = Some css
    /\ Forall2 (icon_of w) (entries book) icons
    /\ length chs = length (entries book)
    /\ (forall k ch, chs !! k = Some ch ->
                     html_file_name ch = "chapter_" ++ format_02 (k + 1) ++ ".xhtml")
    /\ eb_items eb = eb_items (initial_document book (content cover))
                     ++ chapter_items icons chs
    /\ same_header eb (initial_document book (content cover))
    /\ make_epub ev output book w
       = write_epub ev output
           (finished_document eb chs (universal_newlines (content css))) w.
Proof.
  intros Hcover Hcss Hes.
  destruct (make_epub_hands_over ev output book w Hcover Hcss Hes)
    as (cover & css & eb & chs & Hc & Hs & Hloop & Hrun).
  apply add_chapters_items in Hloop
    as (icons & new & Hchs & Hicons & Hlen & Hnames & Hit & Hhd).
  simpl in Hchs. subst chs.
  exists cover, css, eb, icons, new.
  repeat (split; [assumption || reflexivity|]). exact Hrun.
Qed.

End make_epub_layout.


(** ** make_epub: the file names of the chapters *)

Lemma decimal_value_digits (n : nat) :
  decimal_value (list_ascii_of_string (NilZero.string_of_uint (Nat.to_uint n))) = Some n.
Proof.
  unfold decimal_value. rewrite string_of_list_ascii_of_string.
  assert (Hs : NilZero.string_of_uint (Nat.to_uint n)
               = NilEmpty.string_of_uint (Nat.to_uint n)).
  { pose proof (DecimalNat.Unsigned.of_to n) as Hn.
    destruct (Nat.to_uint n) eqn:Hu; try reflexivity.
    simpl in Hn. subst n. discriminate Hu. }
  rewrite Hs, NilEmpty.usu. simpl. rewrite DecimalNat.Unsigned.of_to. reflexivity.
Qed.

Lemma decimal_value_zero (s : list ascii) (n : nat) :
  decimal_value s = Some n -> decimal_value ("0"%char :: s) = Some n.
Proof.
  unfold decimal_value. simpl.
  destruct (NilEmpty.uint_of_string (string_of_list_ascii s)) as [d|]; [|discriminate].
  simpl. intros [= <-]. reflexivity.
Qed.

Lemma decimal_value_format (n : nat) : decimal_value (format_02 n) = Some n.
Proof.
  unfold format_02. generalize (decimal_value_digits n).
  generalize (list_ascii_of_string (NilZero.string_of_uint (Nat.to_uint n))).
  intros digits Hd. generalize (2 - length digits). intros k.
  induction k as [|k IH]; [exact Hd|]. simpl. apply decimal_value_zero, IH.
Qed.

Lemma format_02_inj (n m : nat) : format_02 n = format_02 m -> n = m.
Proof.
  intros Heq. pose proof (decimal_value_format n) as Hn.
  rewrite Heq, decimal_value_format in Hn. congruence.
Qed.

Lemma chapter_file_name_inj (n m : nat) :
  "chapter_" ++ format_02 n ++ ".xhtml" = "chapter_" ++ format_02 m ++ ".xhtml" ->
  n = m.
Proof.
  intros Heq. apply app_inv_head in Heq. apply app_inv_tail in Heq.
  apply format_02_inj, Heq.
Qed.

Section make_epub_names.
Context `{IpAddress} `{Jinja} `{EbookLib}.
Variable ev : env.

End make_epub_names.


Example format_02_examples :
  format_02 1 = "01" /\ format_02 10 = "10" /\ format_02 100 = "100".
Proof. repeat split. Qed.

(** ** make_epub and the dependencies task_epub declares *)

Section make_epub_dependencies.
Context `{IpAddress} `{Jinja} `{EbookLib}.
Variable ev : env.
Variables w1 w2 : world.

Lemma add_chapter_same (i : nat) (entry : Entry) (st : EpubBook * list EpubHtml) :
  (forall p, emoji_target entry = Ok p -> same_content w1 w2 (fspath p)) ->
  (forall r, raw_html_target entry = Ok r -> same_content w1 w2 (fspath r)) ->
  snd (add_chapter i entry st w1) = snd (add_chapter i entry st w2).
Proof.
  intros Hp Hr. destruct st as [eb chs].
  unfold add_chapter, lift, read_text, read. unfold mbind, M_bind, mret, M_ret.
  destruct (emoji_target entry) as [p|]; [|reflexivity].
  specialize (Hp p eq_refl). unfold same_content in Hp.
  destruct (fs w1 !! fspath p) as [f1|], (fs w2 !! fspath p) as [f2|];
    try discriminate; [|reflexivity].
  injection Hp as Hp. simpl in Hp. rewrite Hp.
  destruct (raw_html_target entry) as [r|]; [|reflexivity].
  specialize (Hr r eq_refl). unfold same_content in Hr.
  destruct (fs w1 !! fspath r) as [g1|], (fs w2 !! fspath r) as [g2|];
    try discriminate; [|reflexivity].
  injection Hr as Hr. simpl in Hr. rewrite Hr. reflexivity.
Qed.

Lemma add_chapters_same (es : list Entry) :
  (forall e p, In e es -> emoji_target e = Ok p -> same_content w1 w2 (fspath p)) ->
  (forall e r, In e es -> raw_html_target e = Ok r -> same_content w1 w2 (fspath r)) ->
  forall i st, snd (add_chapters i es st w1) = snd (add_chapters i es st w2).
Proof.
  induction es as [|entry es IH]; intros Hp Hr i st; [reflexivity|].
  simpl. unfold mbind, M_bind.
  pose proof (add_chapter_same i entry st
                (fun p => Hp entry p (or_introl eq_refl))
                (fun r => Hr entry r (or_introl eq_refl))) as Hstep.
  destruct (add_chapter i entry st w1) as [v1 r1] eqn:Hrun1.
  destruct (add_chapter i entry st w2) as [v2 r2] eqn:Hrun2.
  apply add_chapter_world in Hrun1 as ->. apply add_chapter_world in Hrun2 as ->.
  simpl in Hstep. subst r2. destruct r1 as [st'|x]; [|reflexivity].
  apply IH; intros e q Hin; [apply Hp|apply Hr]; right; exact Hin.
Qed.

Lemma mapM_Ok_In {A B} (f : A -> result B) (l : list A) (ys : list B) (x : A) :
  mapM f l = Ok ys -> In x l -> exists y, f x = Ok y /\ In y ys.
Proof.
  intros Hm%mapM_Ok_Forall2 Hin. induction Hm as [|a y l ys Ha _ IH]; [destruct Hin|].
  destruct Hin as [->|Hin]; [exists y; split; [exact Ha|left; reflexivity]|].
  destruct (IH Hin) as (y' & Hy & Hin'). exists y'. split; [exact Hy|right; exact Hin'].
Qed.

(** X14. To assemble the document, [make_epub] reads nothing but files its
    task declares as dependencies: in two build directories that hold the
    same bytes in those files, it either raises the same error in both,
    before the packaging library is called and changing nothing, or hands
    the same document to the library in both. *)
Theorem make_epub_reads_dependencies (output : list ascii) (book : Book) (t : task) :
  task_epub ev book = Ok t ->
  (forall p, In p (file_dep t) -> same_content w1 w2 p) ->
  (exists x, make_epub ev output book w1 = (w1, Raise x)
             /\ make_epub ev output book w2 = (w2, Raise x))
  \/ (exists doc, make_epub ev output book w1 = write_epub ev output doc w1
                  /\ make_epub ev output book w2 = write_epub ev output doc w2).
Proof.
  unfold task_epub.
  destruct (mapM raw_html_target (entries book)) as [raws|] eqn:Hraws; [|discriminate].
  destruct (mapM emoji_target (entries book)) as [emojis|] eqn:Hemojis; [|discriminate].
  simpl. intros [= <-] Hdep. simpl in Hdep.
  assert (Hcover : same_content w1 w2 (fspath (cover_image_target book))).
  { apply Hdep. rewrite !in_app_iff. right. right. left. reflexivity. }
  assert (Hcss : same_content w1 w2 "stylesheets/style.css").
  { apply Hdep. rewrite !in_app_iff. right. right. right. left. reflexivity. }
  assert (Hp : forall e p, In e (entries book) -> emoji_target e = Ok p ->
                           same_content w1 w2 (fspath p)).
  { intros e p Hin He. destruct (mapM_Ok_In _ _ _ _ Hemojis Hin) as (p' & Hp' & Hin').
    assert (p' = p) by congruence. subst p'. apply Hdep. rewrite !in_app_iff.
    right. left. apply in_map, Hin'. }
  assert (Hr : forall e r, In e (entries book) -> raw_html_target e = Ok r ->
                           same_content w1 w2 (fspath r)).
  { intros e r Hin He. destruct (mapM_Ok_In _ _ _ _ Hraws Hin) as (r' & Hr' & Hin').
    assert (r' = r) by congruence. subst r'. apply Hdep. rewrite !in_app_iff.
    left. apply in_map, Hin'. }
  rewrite !make_epub_unfold. unfold same_content in Hcover, Hcss.
  destruct (fs w1 !! fspath (cover_image_target book)) as [c1|],
           (fs w2 !! fspath (cover_image_target book)) as [c2|];
    try discriminate; [|eauto].
  injection Hcover as Hcover. simpl in Hcover. rewrite Hcover.
  pose proof (add_chapters_same (entries book) Hp Hr 0
                (initial_document book (content c2), [])) as Hloop.
  destruct (add_chapters 0 (entries book) _ w1) as [v1 r1] eqn:Hrun1.
  destruct (add_chapters 0 (entries book) _ w2) as [v2 r2] eqn:Hrun2.
  apply add_chapters_world in Hrun1 as ->. apply add_chapters_world in Hrun2 as ->.
  simpl in Hloop. subst r2. destruct r1 as [[eb chs]|x]; [|eauto].
  destruct (fs w1 !! "stylesheets/style.css") as [s1|],
           (fs w2 !! "stylesheets/style.css") as [s2|];
    try discriminate; [|eauto].
  injection Hcss as Hcss. simpl in Hcss. rewrite Hcss.
  right. eauto.
Qed.
End make_epub_dependencies.

Lemma make_epub_reads_dependencies_witness :
  let run w := make_epub (H := unchecked_brackets) (H0 := title_and_body)
                 (H1 := titles_only) quiet_env "build/book.epub" reading_list w in
  (exists x, run fetched = (fetched, Raise x)
             /\ run fetched_again = (fetched_again, Raise x))
  \/ (exists doc,
        run fetched
        = write_epub (EbookLib := titles_only) quiet_env "build/book.epub" doc fetched
        /\ run fetched_again
           = write_epub (EbookLib := titles_only) quiet_env "build/book.epub" doc
               fetched_again).
Proof.
  apply (make_epub_reads_dependencies (H := unchecked_brackets) (H0 := title_and_body)
           (H1 := titles_only) quiet_env fetched fetched_again "build/book.epub"
           reading_list
           {| task_name := "epub";
              file_dep := ["build/hello-world.raw.html"; "build/grin.png";
                           "build/cover.png"; "stylesheets/style.css";
                           "templates/chapter.jinja"];
              targets := ["build/book.epub"];
              actions := [fun targets =>
                            t ← lift (first_target targets);
                            make_epub (H := unchecked_brackets) (H0 := title_and_body)
                              (H1 := titles_only) quiet_env t reading_list] |}).
  - reflexivity.
  - intros p Hin. simpl in Hin.
    repeat (destruct Hin as [<-|Hin]; [vm_compute; reflexivity|]). destruct Hin.
Defined.

(** ** Task generation when an icon target cannot be derived *)

(** X17. Icon targets are derived while the tasks are generated. One entry
    whose icon target cannot be derived (its icon URL does not parse, or
    its icon name leaves no file name) stops the generation of the icon
    tasks and of the packaging task, for all entries. *)
Theorem icon_target_failure_stops_generation `{IpAddress} `{Jinja} `{EbookLib}
    (ev : env) (b : Book) (e : Entry) (x : exn) :
  In e (entries b) -> emoji_target e = Raise x ->
  (exists y, task_emoji ev b = Raise y) /\ (exists y, task_epub ev b = Raise y).
Proof.
  intros Hin He. split.
  - unfold task_emoji. destruct (metadata_target e) as [dep|y] eqn:Hdep.
    + eapply (mapM_raises _ _ e x); [exact Hin|]. simpl. rewrite Hdep, He. reflexivity.
    + eapply (mapM_raises _ _ e y); [exact Hin|]. simpl. rewrite Hdep. reflexivity.
  - unfold task_epub.
    destruct (mapM raw_html_target (entries b)) as [raws|y]; simpl; [|eauto].
    destruct (mapM_raises emoji_target (entries b) e x Hin He) as [y ->]. simpl. eauto.
Qed.

Lemma icon_target_failure_stops_generation_witness :
  (exists y, task_emoji (H := unchecked_brackets) quiet_env
               {| book_title := "Reading List"; entries := [hello_world; broken_icon] |}
             = Raise y)
  /\ (exists y, task_epub (H := unchecked_brackets) (H0 := title_and_body)
                  (H1 := titles_only) quiet_env
                  {| book_title := "Reading List"; entries := [hello_world; broken_icon] |}
                = Raise y).
Proof.
  apply (icon_target_failure_stops_generation (H := unchecked_brackets)
           (H0 := title_and_body) (H1 := titles_only) quiet_env
           {| book_title := "Reading List"; entries := [hello_world; broken_icon] |}
           broken_icon ValueError).
  - right. left. reflexivity.
  - reflexivity.
Defined.

(** ** The chapter flags on empty titles and tags *)

Lemma contains_empty (s : list ascii) : contains s [] = true.
Proof. destruct s; reflexivity. Qed.

(** X18. An empty title always counts as present in the raw HTML, and so
    do empty tags: an entry without tags, or whose tags are all empty (the
    tags string [""] gives one empty tag), has its tags flag on whatever
    the body. *)
Theorem empty_title_and_tags_present (e : Entry) (emoji_file_name raw_html : list ascii) :
  let c := render_args e emoji_file_name raw_html in
  (title e = [] -> raw_html_includes_title c = true)
  /\ (Forall (fun tag => tag = []) (tags e) -> raw_html_includes_tags c = true).
Proof.
  simpl. split.
  - intros ->. apply contains_empty.
  - intros Ht. apply forallb_forall. intros tag Hin.
    rewrite List.Forall_forall in Ht. rewrite (Ht tag Hin). apply contains_empty.
Qed.

Lemma empty_title_and_tags_present_witness :
  let c := render_args {| title := ""; emoji_url := ""; emoji_name := "grin";
                          tags := [""]; url := "" |} "grin.png" "<html></html>" in
  raw_html_includes_title c = true /\ raw_html_includes_tags c = true.
Proof.
  split.
  - apply (proj1 (empty_title_and_tags_present
                    {| title := ""; emoji_url := ""; emoji_name := "grin";
                       tags := [""]; url := "" |} "grin.png" "<html></html>")).
    reflexivity.
  - apply (proj2 (empty_title_and_tags_present
                    {| title := ""; emoji_url := ""; emoji_name := "grin";
                       tags := [""]; url := "" |} "grin.png" "<html></html>")).
    repeat constructor.
Defined.

(** ** base64 and the cover page *)

Lemma byte_value_range (c : ascii) : (0 <= byte_value c < 256)%Z.
Proof.
  unfold byte_value, code. pose proof (N_ascii_bounded c). lia.
Qed.

Lemma byte_of_value (c : ascii) : byte_of (byte_value c) = c.
Proof.
  unfold byte_of, byte_value, code. rewrite N2Z.id. apply ascii_N_embedding.
Qed.

Lemma b64_char_spec (i : Z) :
  (0 <= i < 64)%Z ->
  b64_index (b64_char i) = i /\ ascii_eqb (b64_char i) "=" = false.
Proof.
  intros Hi.
  assert (Hall : forallb (fun k => (b64_index (b64_char (Z.of_nat k)) =? Z.of_nat k)%Z
                                   && negb (ascii_eqb (b64_char (Z.of_nat k)) "="))
                         (seq 0 64) = true) by (vm_compute; reflexivity).
  rewrite forallb_forall in Hall.
  assert (Hin : In (Z.to_nat i) (seq 0 64)) by (apply in_seq; lia).
  specialize (Hall _ Hin). rewrite Z2Nat.id in Hall by lia.
  apply andb_true_iff in Hall as [H1 H2].
  apply Z.eqb_eq in H1. apply negb_true_iff in H2. auto.
Qed.

Lemma sextets_range (n : Z) :
  (0 <= n < 16777216)%Z ->
  (0 <= n / 262144 < 64 /\ 0 <= n / 4096 mod 64 < 64
   /\ 0 <= n / 64 mod 64 < 64 /\ 0 <= n mod 64 < 64)%Z.
Proof. intros Hn. Z.div_mod_to_equations. lia. Qed.

Lemma sextets_number (n : Z) :
  (0 <= n < 16777216)%Z ->
  (((n / 262144 * 64 + n / 4096 mod 64) * 64 + n / 64 mod 64) * 64 + n mod 64 = n)%Z.
Proof. intros Hn. Z.div_mod_to_equations. lia. Qed.

Lemma three_bytes (a b c : Z) :
  (0 <= a < 256 -> 0 <= b < 256 -> 0 <= c < 256 ->
   let n := a * 65536 + b * 256 + c in
   0 <= n < 16777216 /\ n / 65536 = a /\ n / 256 mod 256 = b /\ n mod 256 = c)%Z.
Proof. intros Ha Hb Hc n. subst n. Z.div_mod_to_equations. lia. Qed.

Lemma b64decode_group (n : Z) (c3 c4 : ascii) (rest : list ascii) :
  (0 <= n < 16777216)%Z ->
  b64decode (b64_char (n / 262144) :: b64_char (n / 4096 mod 64) :: c3 :: c4 :: rest)
  = let m := (((n / 262144 * 64 + n / 4096 mod 64) * 64 + b64_index c3) * 64
              + b64_index c4)%Z in
    if ascii_eqb c3 "=" then [byte_of (m / 65536)]
    else if ascii_eqb c4 "=" then [byte_of (m / 65536); byte_of (m / 256 mod 256)]
    else byte_of (m / 65536) :: byte_of (m / 256 mod 256) :: byte_of (m mod 256)
         :: b64decode rest.
Proof.
  intros Hn. destruct (sextets_range n Hn) as (H1 & H2 & _).
  cbn [b64decode].
  rewrite (proj1 (b64_char_spec _ H1)), (proj1 (b64_char_spec _ H2)). reflexivity.
Qed.

Lemma b64_roundtrip_le (k : nat) :
  forall l, length l <= k -> b64decode (b64encode l) = l.
Proof.
  induction k as [k IH] using lt_wf_ind. intros l Hk.
  destruct l as [|a [|b [|c l]]]; [reflexivity| | |].
  - pose proof (byte_value_range a) as Ha.
    destruct (three_bytes (byte_value a) 0 0 Ha) as (Hn & Hb1 & _); [lia..|].
    rewrite !Z.mul_0_l, !Z.add_0_r in Hn, Hb1.
    cbn [b64encode]. rewrite b64decode_group by exact Hn.
    change (ascii_eqb "=" "=") with true. cbv zeta. cbv iota.
    change (b64_index "=") with 0%Z. rewrite !Z.add_0_r.
    replace ((byte_value a * 65536 / 262144 * 64 + byte_value a * 65536 / 4096 mod 64)
             * 64 * 64)%Z with (byte_value a * 65536)%Z
      by (Z.div_mod_to_equations; lia).
    rewrite Hb1, byte_of_value. reflexivity.
  - pose proof (byte_value_range a) as Ha. pose proof (byte_value_range b) as Hb.
    destruct (three_bytes (byte_value a) (byte_value b) 0 Ha Hb)
      as (Hn & Hb1 & Hb2 & _); [lia|].
    rewrite !Z.add_0_r in Hn, Hb1, Hb2.
    destruct (sextets_range _ Hn) as (_ & _ & H3 & _).
    cbn [b64encode]. rewrite b64decode_group by exact Hn.
    rewrite (proj2 (b64_char_spec _ H3)), (proj1 (b64_char_spec _ H3)).
    change (ascii_eqb "=" "=") with true. cbv zeta. cbv iota.
    change (b64_index "=") with 0%Z. rewrite Z.add_0_r.
    set (n := (byte_value a * 65536 + byte_value b * 256)%Z) in *.
    replace (((n / 262144 * 64 + n / 4096 mod 64) * 64 + n / 64 mod 64) * 64)%Z with n
      by (subst n; Z.div_mod_to_equations; lia).
    rewrite Hb1, Hb2, !byte_of_value. reflexivity.
  - pose proof (byte_value_range a) as Ha. pose proof (byte_value_range b) as Hb.
    pose proof (byte_value_range c) as Hc.
    destruct (three_bytes (byte_value a) (byte_value b) (byte_value c) Ha Hb Hc)
      as (Hn & Hb1 & Hb2 & Hb3).
    destruct (sextets_range _ Hn) as (_ & _ & H3 & H4).
    cbn [b64encode]. rewrite b64decode_group by exact Hn.
    rewrite (proj2 (b64_char_spec _ H3)), (proj1 (b64_char_spec _ H3)).
    rewrite (proj2 (b64_char_spec _ H4)), (proj1 (b64_char_spec _ H4)).
    cbv zeta. cbv iota. rewrite (sextets_number _ Hn).
    rewrite Hb1, Hb2, Hb3, !byte_of_value.
    rewrite (IH (length l)); [reflexivity| |reflexivity]. simpl in Hk. lia.
Qed.

Lemma b64_roundtrip (l : list ascii) : b64decode (b64encode l) = l.
Proof. apply (b64_roundtrip_le (length l)). reflexivity. Qed.

Lemma image_to_data_url_read (p : Path) (w : world) :
  image_to_data_url p w
  = match fs w !! fspath p with
    | Some f => (w, Ok ("data:image/" ++ skipn 1 (suffix p) ++ ";base64,"
                        ++ b64encode (content f)))
    | None => (w, Raise FileNotFoundError)
    end.
Proof.
  unfold image_to_data_url, read, mbind, M_bind, mret, M_ret.
  destruct (fs w !! fspath p); [|reflexivity].
  rewrite <- !app_assoc. reflexivity.
Qed.

Lemma app_inv_prefixes {A} (a b c x y : list A) :
  a ++ b ++ c ++ x = a ++ b ++ c ++ y -> x = y.
Proof. intros Heq. repeat apply app_inv_head in Heq. exact Heq. Qed.

(** X19. The data URL of an image loses nothing: when the same path gives
    the same data URL in two build directories, the image files hold the
    same bytes. A missing image raises FileNotFoundError. *)
Theorem data_url_determines_image (p : Path) (w1 w2 : world) (u : list ascii) :
  snd (image_to_data_url p w1) = Ok u ->
  snd (image_to_data_url p w2) = Ok u ->
  same_content w1 w2 (fspath p)
  /\ (forall w, fs w !! fspath p = None ->
                image_to_data_url p w = (w, Raise FileNotFoundError)).
Proof.
  rewrite !image_to_data_url_read. unfold same_content.
  intros Hu1 Hu2. split.
  - destruct (fs w1 !! fspath p) as [f1|]; [|discriminate].
    destruct (fs w2 !! fspath p) as [f2|]; [|discriminate].
    cbn [snd] in Hu1, Hu2. injection Hu1 as Hu1. injection Hu2 as Hu2.
    rewrite <- Hu2 in Hu1.
    apply (app_inv_prefixes "data:image/" (skipn 1 (suffix p)) ";base64,") in Hu1.
    apply (f_equal b64decode) in Hu1. rewrite !b64_roundtrip in Hu1.
    simpl. rewrite Hu1. reflexivity.
  - intros w Hw. rewrite image_to_data_url_read, Hw. reflexivity.
Qed.

Lemma data_url_determines_image_witness :
  same_content with_texture
    {| fs := fs with_texture; clock := 5; sent := [] |} "images/paper-fibers.png"
  /\ (forall w, fs w !! fspath (mkPath "images/paper-fibers.png") = None ->
                image_to_data_url (mkPath "images/paper-fibers.png") w
                = (w, Raise FileNotFoundError)).
Proof.
  apply (data_url_determines_image (mkPath "images/paper-fibers.png") with_texture
           {| fs := fs with_texture; clock := 5; sent := [] |}
           "data:image/png;base64,UE5H");
    vm_compute; reflexivity.
Defined.

(** X20. The cover page is the cover template applied to the data URL of
    the texture [images/paper-fibers.png], the title of the collection and
    the direction [ltr]; it is written to the first target and no other
    file changes. The texture is read before the target is opened: when it
    is missing, FileNotFoundError is raised and nothing is written. *)
Theorem write_cover_html_effect `{CoverTemplate} (ev : env) (book : Book)
    (tgts : list (list ascii)) (w : world) :
  (fs w !! "images/paper-fibers.png" = None ->
   write_cover_html ev book tgts w = (w, Raise FileNotFoundError))
  /\ (forall f t rest,
        fs w !! "images/paper-fibers.png" = Some f -> tgts = t :: rest ->
        io_fault ev t = None ->
        exists w',
          write_cover_html ev book tgts w = (w', Ok tt)
          /\ content <$> fs w' !! t
             = Some (cover_template_render
                       {| background_texture :=
                            "data:image/png;base64," ++ b64encode (content f);
                          cover_title := book_title book;
                          text_direction := "ltr" |})
          /\ (forall q, q <> t -> fs w' !! q = fs w !! q)
          /\ sent w' = sent w).
Proof.
  assert (Hstart : forall k : list ascii -> M unit,
             (image_to_data_url (mkPath "images/paper-fibers.png") ≫= k) w
             = match fs w !! "images/paper-fibers.png" with
               | Some f => k ("data:image/png;base64," ++ b64encode (content f)) w
               | None => (w, Raise FileNotFoundError)
               end).
  { intros k. unfold mbind, M_bind. rewrite image_to_data_url_read.
    change (fspath (mkPath "images/paper-fibers.png")) with "images/paper-fibers.png".
    destruct (fs w !! "images/paper-fibers.png"); reflexivity. }
  unfold write_cover_html. rewrite Hstart. split.
  - intros ->. reflexivity.
  - intros f t rest -> -> Hio.
    unfold lift, first_target, mbind, M_bind, open_w, write, set_file.
    rewrite !Hio. eexists. split; [reflexivity|]. simpl.
    split; [rewrite lookup_insert_eq; reflexivity|]. split; [|reflexivity].
    intros q Hq. rewrite !lookup_insert_ne by congruence. reflexivity.
Qed.

Lemma write_cover_html_effect_witness :
  exists w',
    write_cover_html (H := title_over_texture) quiet_env reading_list
      ["build/cover.html"] with_texture = (w', Ok tt)
    /\ content <$> fs w' !! "build/cover.html"
       = Some (cover_template_render (CoverTemplate := title_over_texture)
                 {| background_texture := "data:image/png;base64," ++ b64encode "PNG";
                    cover_title := book_title reading_list;
                    text_direction := "ltr" |})
    /\ (forall q, q <> "build/cover.html" -> fs w' !! q = fs with_texture !! q)
    /\ sent w' = sent with_texture.
Proof.
  apply (proj2 (write_cover_html_effect (H := title_over_texture) quiet_env reading_list
                  ["build/cover.html"] with_texture)
           {| content := "PNG"; mtime := 0 |} "build/cover.html" []);
    reflexivity.
Defined.
